(** * The FreeNAS CLI shell engine ([src/cli/src/repl.py]) in Rocq

    A shallow embedding of the interactive shell: the typed variable store,
    the session context (configuration file, plugin loading, namespace
    attachment), the line tokenizer and the read-eval loop with its output
    lock.  The program is Python 2; every function below follows the
    statements of the method of the same name. *)

From Stdlib Require Import ZArith Ascii String List Lia.
From stdpp Require Import base option strings gmap list.
Import ListNotations.

Set Warnings "-register-all".

Local Open Scope string_scope.
Local Open Scope Z_scope.

(** ** Python values, exceptions and string primitives *)

Module Py.

(** The exceptions the shell can meet.  [ValueError] and [TypeError] carry
    their message, [KeyError] the missing key. *)
Inductive exn : Type :=
| ValueError (msg : string)
| TypeError (msg : string)
| IndexError
| KeyError (key : string)
| IOError
| EOFError
| RuntimeError (msg : string)
| SystemExit
| KeyboardInterrupt.

(** [isinstance(e, Exception)]: [SystemExit] and [KeyboardInterrupt]
    derive from [BaseException] only. *)
Definition is_Exception (e : exn) : bool :=
  match e with
  | SystemExit | KeyboardInterrupt => false
  | _ => true
  end.

(** A call either returns or raises. *)
Inductive result (A : Type) : Type :=
| Ok (a : A)
| Raise (e : exn).
Arguments Ok {A} a.
Arguments Raise {A} e.

Definition bind {A B : Type} (r : result A) (k : A -> result B) : result B :=
  match r with
  | Ok a => k a
  | Raise e => Raise e
  end.

Notation "'try!' x := r 'in' k" := (bind r (fun x => k))
  (at level 10, x name, r at level 100, k at level 200).

Definition is_ok {A : Type} (r : result A) : bool :=
  match r with Ok _ => true | Raise _ => false end.

(** The values a session variable can hold. *)
Inductive value : Type :=
| PyNone
| PyBool (b : bool)
| PyInt (n : Z)
| PyStr (s : string).

(** The type objects used as [Variable.type]. *)
Inductive pytype : Type := T_int | T_str | T_bool.

Definition pytype_eqb (a b : pytype) : bool :=
  match a, b with
  | T_int, T_int | T_str, T_str | T_bool, T_bool => true
  | _, _ => false
  end.

(** [a == b] on values: booleans compare as the integers 0 and 1. *)
Definition value_eqb (a b : value) : bool :=
  match a, b with
  | PyNone, PyNone => true
  | PyStr s, PyStr t => String.eqb s t
  | PyInt n, PyInt m => Z.eqb n m
  | PyBool x, PyBool y => Bool.eqb x y
  | PyInt n, PyBool y => Z.eqb n (if y then 1 else 0)
  | PyBool x, PyInt m => Z.eqb (if x then 1 else 0) m
  | _, _ => false
  end.

(** [v in l] *)
Definition value_in (v : value) (l : list value) : bool :=
  existsb (value_eqb v) l.

(** The double quote character (code 34). *)
Definition dquote : ascii := "034"%char.
(** The single quote character (code 39). *)
Definition squote : ascii := "039"%char.

(** C [isspace]: tab, line feed, vertical tab, form feed, carriage return,
    space. *)
Definition isspace (c : ascii) : bool :=
  let n := nat_of_ascii c in
  ((9 <=? n)%nat && (n <=? 13)%nat) || (n =? 32)%nat.

Definition isdigit (c : ascii) : bool :=
  let n := nat_of_ascii c in
  (48 <=? n)%nat && (n <=? 57)%nat.

Fixpoint lstrip (s : string) : string :=
  match s with
  | String c s' => if isspace c then lstrip s' else s
  | EmptyString => EmptyString
  end.

(** [rstrip] drops the trailing white space: a character is kept when it
    is not a space or when something is kept after it. *)
Fixpoint rstrip (s : string) : string :=
  match s with
  | EmptyString => EmptyString
  | String c s' =>
      match rstrip s' with
      | EmptyString => if isspace c then EmptyString else String c EmptyString
      | r => String c r
      end
  end.

(** [s.strip()] *)
Definition strip (s : string) : string := rstrip (lstrip s).

(** [s[0]]: raises [IndexError] on the empty string. *)
Definition first (s : string) : result ascii :=
  match s with
  | String c _ => Ok c
  | EmptyString => Raise IndexError
  end.

(** [s[-1]]: raises [IndexError] on the empty string. *)
Fixpoint last (s : string) : result ascii :=
  match s with
  | EmptyString => Raise IndexError
  | String c EmptyString => Ok c
  | String _ s' => last s'
  end.

(** [s[:-1]] *)
Fixpoint drop_last (s : string) : string :=
  match s with
  | EmptyString => EmptyString
  | String _ EmptyString => EmptyString
  | String c s' => String c (drop_last s')
  end.

(** [s[1:]] *)
Definition drop_first (s : string) : string :=
  match s with
  | EmptyString => EmptyString
  | String _ s' => s'
  end.

(** [s[1:-1]]: slices never raise. *)
Definition inner (s : string) : string := drop_last (drop_first s).

(** [c in s] for a one-character string [c]. *)
Fixpoint contains (c : ascii) (s : string) : bool :=
  match s with
  | EmptyString => false
  | String d s' => Ascii.eqb c d || contains c s'
  end.

(** [s.partition(c)] gives the text before the first [c], the separator
    and the text after it; when [c] does not occur, [(s, '', '')]. *)
Fixpoint partition (c : ascii) (s : string) : string * string * string :=
  match s with
  | EmptyString => (EmptyString, EmptyString, EmptyString)
  | String d s' =>
      if Ascii.eqb c d then (EmptyString, String c EmptyString, s')
      else
        match partition c s' with
        | (h, EmptyString, _) => (String d h, EmptyString, EmptyString)
        | (h, sep, t) => (String d h, sep, t)
        end
  end.

(** [s.split(c)]: the pieces between the occurrences of [c]; never the
    empty list. *)
Fixpoint split (c : ascii) (s : string) : list string :=
  match s with
  | EmptyString => [EmptyString]
  | String d s' =>
      if Ascii.eqb c d then EmptyString :: split c s'
      else
        match split c s' with
        | p :: ps => String d p :: ps
        | [] => [String d EmptyString]
        end
  end.

(** [needle in s] for strings: [needle] occurs as a substring. *)
Fixpoint substring_of (needle s : string) : bool :=
  String.prefix needle s ||
  match s with
  | EmptyString => false
  | String _ s' => substring_of needle s'
  end.

(** [l[-1]] on a list. *)
Definition list_last {A : Type} (l : list A) : result A :=
  match List.last (map Some l) None with
  | Some a => Ok a
  | None => Raise IndexError
  end.

(** [l[1:-1]] on a list. *)
Definition list_inner {A : Type} (l : list A) : list A :=
  removelast (tl l).

(** Decimal digits, most significant first. *)
Fixpoint digits_value (s : string) (acc : Z) : option Z :=
  match s with
  | EmptyString => Some acc
  | String c s' =>
      if isdigit c
      then digits_value s' (10 * acc + Z.of_nat (nat_of_ascii c - 48))
      else None
  end.

Definition unsigned_literal (s : string) : option Z :=
  match s with
  | EmptyString => None
  | _ => digits_value s 0
  end.

(** The builtin [int] on a [str], base 10, as CPython 2 reads it: white
    space, an optional sign, white space again, at least one digit, white
    space.  Anything else is not a literal. *)
Definition int_of_str (s : string) : option Z :=
  match lstrip s with
  | String "+" r => unsigned_literal (rstrip (lstrip r))
  | String "-" r => Z.opp <$> unsigned_literal (rstrip (lstrip r))
  | r => unsigned_literal (rstrip r)
  end.

Definition invalid_literal : string := "invalid literal for int() with base 10".

(** The builtin [int(v)]. *)
Definition int (v : value) : result value :=
  match v with
  | PyInt n => Ok (PyInt n)
  | PyBool b => Ok (PyInt (if b then 1 else 0))
  | PyStr s =>
      match int_of_str s with
      | Some n => Ok (PyInt n)
      | None => Raise (ValueError invalid_literal)
      end
  | PyNone => Raise (TypeError "int() argument must be a string or a number")
  end.

End Py.

Import Py.

(** ** class VariableStore *)

Module VariableStore.

(** [class Variable] ([Variable] is a reserved word here, hence the
    underscore): the four attributes set by [__init__]. *)
Record Variable_ : Type := mkVariable {
  default : value;
  type : pytype;
  choices : option (list value);
  value_ : value
}.

(** [Variable.__init__(default, type, choices=None)] *)
Definition Variable_init (d : value) (t : pytype) (c : option (list value)) : Variable_ :=
  {| default := d; type := t; choices := c; value_ := d |}.

Definition not_a_choice : string := "Value not on the list of possible choices".

(** [Variable.set(self, value)]: the argument is coerced when the declared
    type is [int], a [ValueError] of the coercion is raised again, and the
    coerced value is checked against the choices.  The method has no
    assignment to [self.value]: on a normal return the variable is the one
    it was called on. *)
Definition Variable_set (self : Variable_) (v : value) : result Variable_ :=
  try! v1 := (if pytype_eqb (type self) T_int then int v else Ok v) in
  match choices self with
  | Some cs =>
      if negb (value_in v1 cs) then Raise (ValueError not_a_choice)
      else Ok self
  | None => Ok self
  end.

(** The store: the dictionary [self.variables]. *)
Record t : Type := mkStore {
  variables : gmap string Variable_
}.

(** [VariableStore.__init__]; [lang] is [os.environ['LANG']]. *)
Definition init (lang : string) : t :=
  {| variables :=
       <["output-format" := Variable_init (PyStr "ascii") T_str
                              (Some [PyStr "ascii"; PyStr "json"])]>
       (<["datetime-format" := Variable_init (PyStr "natural") T_str None]>
       (<["language" := Variable_init (PyStr lang) T_str None]>
       (<["prompt" := Variable_init (PyStr "{host}:{path}>") T_str None]>
       (<["timeout" := Variable_init (PyInt 10) T_int None]>
       (<["show-events" := Variable_init (PyBool true) T_bool None]> ∅))))) |}.

(** [self.variables[name]] *)
Definition lookup_variable (self : t) (name : string) : result Variable_ :=
  match variables self !! name with
  | Some var => Ok var
  | None => Raise (KeyError name)
  end.

(** [get(self, name)] *)
Definition get (self : t) (name : string) : result value :=
  try! var := lookup_variable self name in
  Ok (value_ var).

(** [set(self, name, value)]: the store after the call, and how the call
    ended.  The variable object is updated in place by whatever
    [Variable.set] does to it. *)
Definition set (self : t) (name : string) (v : value) : t * result unit :=
  match lookup_variable self name with
  | Raise e => (self, Raise e)
  | Ok var =>
      match Variable_set var v with
      | Raise e => (self, Raise e)
      | Ok var' => ({| variables := <[name := var']> (variables self) |}, Ok tt)
      end
  end.

(** [get_all(self)]: the pairs the generator yields (dictionary order is
    not specified; the map's own order is used). *)
Definition get_all (self : t) : list (string * value) :=
  (fun p => (p.1, value_ p.2)) <$> map_to_list (variables self).

End VariableStore.

(** ** Dictionaries kept as association lists

    The namespace and plugin dictionaries are iterated by the program
    ([items()], [values()]), so they are kept as lists of pairs with unique
    keys: a lookup takes the first pair of the key, an assignment replaces
    the pair of the key or adds one. *)

Module Dict.

Section Dict.
Context {V : Type}.

(** [d[key]], [None] when the key is absent. *)
Fixpoint get (key : string) (d : list (string * V)) : option V :=
  match d with
  | [] => None
  | (k, v) :: d' => if String.eqb key k then Some v else get key d'
  end.

(** [key in d] *)
Definition mem (key : string) (d : list (string * V)) : bool :=
  match get key d with Some _ => true | None => false end.

(** [d[key] = v] *)
Fixpoint set (key : string) (v : V) (d : list (string * V)) : list (string * V) :=
  match d with
  | [] => [(key, v)]
  | (k, w) :: d' =>
      if String.eqb key k then (k, v) :: d' else (k, w) :: set key v d'
  end.

End Dict.

End Dict.

(** ** shlex.split(line, posix=False)

    The standard library's lexer in the configuration [shlex.split] gives
    it here: non-POSIX, [whitespace_split] on, no comment characters.  The
    three states of [shlex.read_token] are kept: between tokens (the state
    written [' ']), inside a word (['a']), inside a quotation opened by
    [q]. *)

Module Shlex.

Inductive lexstate : Type :=
| Between
| InWord
| InQuote (q : ascii).

(** [self.whitespace] is space, tab, carriage return and line feed. *)
Definition whitespace (c : ascii) : bool :=
  let n := nat_of_ascii c in
  (n =? 32)%nat || (n =? 9)%nat || (n =? 13)%nat || (n =? 10)%nat.

(** [self.quotes] is the single and the double quote. *)
Definition quotes (c : ascii) : bool :=
  Ascii.eqb c squote || Ascii.eqb c dquote.

(** [self.wordchars]: letters, digits and the underscore. *)
Definition wordchars (c : ascii) : bool :=
  let n := nat_of_ascii c in
  ((97 <=? n)%nat && (n <=? 122)%nat) || ((65 <=? n)%nat && (n <=? 90)%nat)
  || ((48 <=? n)%nat && (n <=? 57)%nat) || (n =? 95)%nat.

Definition no_closing_quotation : string := "No closing quotation".

(** [snoc tok c] is [self.token + nextchar]. *)
Definition snoc (tok : string) (c : ascii) : string :=
  tok ++ String c EmptyString.

(** The characters are read one by one; [tok] is [self.token].  A token is
    emitted at the closing quote of a quotation, at white space after a
    word and at the end of the input inside a word; the end of the input
    inside a quotation raises [ValueError].  Since [whitespace_split] is
    on, a character that is neither white space nor a quote starts a word
    between tokens, whether it is in [wordchars] or not, and every
    character but white space extends a word, quotes included. *)
Fixpoint read_tokens (st : lexstate) (tok : string) (input : string)
  : result (list string) :=
  match input with
  | EmptyString =>
      match st with
      | Between => Ok []
      | InWord => Ok [tok]
      | InQuote _ => Raise (ValueError no_closing_quotation)
      end
  | String nextchar rest =>
      match st with
      | Between =>
          if whitespace nextchar then read_tokens Between EmptyString rest
          else if wordchars nextchar then
            read_tokens InWord (String nextchar EmptyString) rest
          else if quotes nextchar then
            read_tokens (InQuote nextchar) (String nextchar EmptyString) rest
          else
            read_tokens InWord (String nextchar EmptyString) rest
      | InQuote q =>
          if Ascii.eqb nextchar q then
            try! ts := read_tokens Between EmptyString rest in
            Ok (snoc tok nextchar :: ts)
          else read_tokens (InQuote q) (snoc tok nextchar) rest
      | InWord =>
          if whitespace nextchar then
            try! ts := read_tokens Between EmptyString rest in
            Ok (tok :: ts)
          else read_tokens InWord (snoc tok nextchar) rest
      end
  end.

(** [shlex.split(line, posix=False)] *)
Definition split (line : string) : result (list string) :=
  read_tokens Between EmptyString line.

End Shlex.

(** ** The namespace tree and its commands

    The tree is built by the module [namespace] and filled by the
    plugins; the shell uses three operations of a namespace. *)

Module Namespace.

(** A command object.  Its body is plugin code: the loop calls
    [run(context, args, kwargs)], uses no return value and sees only
    whether the call returns ([None]) or raises. *)
Record Command : Type := mkCommand {
  cmd_id : string;
  run : list string -> gmap string string -> option exn
}.

(** A namespace object: its dictionary of child namespaces and its
    dictionary of commands.  The tree is a value; an object is taken to
    hang at one place of the tree. *)
Inductive t : Type :=
| Node (nslist : list (string * t)) (cmdlist : list (string * Command)).

(** Modelled from the spec: [namespace.Namespace.namespaces], the lookup
    of child namespaces by name (names are unique). *)
Definition namespaces (self : t) : list (string * t) :=
  match self with Node nslist _ => nslist end.

(** Modelled from the spec: [namespace.Namespace.commands], the lookup of
    commands by name (names are unique). *)
Definition commands (self : t) : list (string * Command) :=
  match self with Node _ cmdlist => cmdlist end.

(** Modelled from the spec: [namespace.Namespace.register_namespace],
    which registers [ns] under [name] among the children of [self]. *)
Definition register_namespace (self : t) (name : string) (ns : t) : t :=
  match self with
  | Node nslist cmdlist => Node (Dict.set name ns nslist) cmdlist
  end.

(** [RootNamespace()]: the empty root. *)
Definition RootNamespace : t := Node [] [].

(** The pointer walk [ptr = ptr.namespaces()[n]] along [segs]; [None] when
    a segment is not among the children of the namespace reached. *)
Fixpoint resolve (segs : list string) (ptr : t) : option t :=
  match segs with
  | [] => Some ptr
  | n :: rest =>
      match Dict.get n (namespaces ptr) with
      | None => None
      | Some child => resolve rest child
      end
  end.

(** The tree after the object reached along [segs] was changed in place
    by [f]. *)
Fixpoint update_at (segs : list string) (f : t -> t) (ptr : t) : t :=
  match segs with
  | [] => f ptr
  | n :: rest =>
      match Dict.get n (namespaces ptr) with
      | None => ptr
      | Some child =>
          Node (Dict.set n (update_at rest f child) (namespaces ptr))
               (commands ptr)
      end
  end.

End Namespace.

(** ** The terminal: the output lock and what is written *)

Module Output.

(** What reaches the terminal, and the command calls made on the way. *)
Inductive item : Type :=
| Invoked (cmd : string) (args : list string) (kwargs : gmap string string)
| ErrorLine (e : exn)
| Traceback
| CommandNotFound
| Message (text : string)
| BlankReadline
| RestoreReadline.

(** Modelled from the spec: [output.output_lock], the one output mutex
    shared by command output and event output.  [locked] tells whether it
    is held; [acquired] and [released] count the calls that returned.
    The printing of an event takes and gives back the lock within one
    step, so a lock that is found held between two steps was left held by
    an earlier line of the loop, and whoever asks for it then waits for
    ever. *)
Record t : Type := mkOutput {
  locked : bool;
  acquired : nat;
  released : nat;
  written : list item
}.

Definition init : t :=
  {| locked := false; acquired := 0; released := 0; written := [] |}.

(** [output_lock.acquire()] on a free lock. *)
Definition acquire (o : t) : t :=
  {| locked := true; acquired := S (acquired o); released := released o;
     written := written o |}.

(** [output_lock.release()] *)
Definition release (o : t) : t :=
  {| locked := false; acquired := acquired o; released := S (released o);
     written := written o |}.

Definition write (o : t) (i : item) : t :=
  {| locked := locked o; acquired := acquired o; released := released o;
     written := written o ++ [i] |}.

End Output.

(** ** class Context *)

Module Context.

(** A parsed JSON document (numbers are kept as integers). *)
Inductive Json : Type :=
| JNull
| JBool (b : bool)
| JNum (n : Z)
| JStr (s : string)
| JList (l : list Json)
| JObj (d : list (string * Json)).

(** The hook [_init(context)] is plugin code; it is taken to make a
    sequence of [context.attach_namespace(path, ns)] calls and then to
    return or to raise. *)
Record InitHook : Type := mkInitHook {
  attaches : list (string * Namespace.t);
  init_raises : option exn
}.

(** What the top-level code of a plugin file defines: the hooks.  The
    top-level code of a file that compiles is taken to define its names
    and to return. *)
Record Plugin : Type := mkPlugin {
  init_hook : option InitHook;
  login_hook : bool
}.

(** What the session reads from the file system: the outcome of opening a
    configuration file and parsing it, and the outcome of opening and
    compiling a plugin file in [imp.load_source]: what its code defines,
    or the exception when the file cannot be opened or compiled, which is
    raised before any code of the file runs. *)
Record FileSystem : Type := mkFileSystem {
  json_load : string -> result Json;
  source : string -> result Plugin
}.

(** The module object that [imp.load_source('plugin', path)] returns.
    The call runs the file in the module that [sys.modules] holds under
    the name [plugin], and makes a module only when there is none: every
    file runs in the one module, and a hook that an earlier file defined
    stays in it until a later file defines the hook again.  For each
    hook the module holds: the file that defined it last, and for
    [_init] what it does. *)
Record PluginModule : Type := mkPluginModule {
  mod_init : option (string * InitHook);
  mod_login : option string
}.

(** The module before any file ran in it. *)
Definition empty_module : PluginModule :=
  {| mod_init := None; mod_login := None |}.

(** The module after the top-level code of the file at [path] ran in
    it. *)
Definition exec_file (m : PluginModule) (path : string) (defs : Plugin)
  : PluginModule :=
  {| mod_init := match init_hook defs with
                 | Some hook => Some (path, hook)
                 | None => mod_init m
                 end;
     mod_login := if login_hook defs then Some path else mod_login m |}.

(** A reference to a module object.  The session gets its modules from
    [imp.load_source('plugin', _)] alone, and every such call returns the
    one object [sys.modules['plugin']]. *)
Inductive module_ref : Type :=
| sys_modules_plugin.

(** What the context does that can be observed from outside: the log
    messages, the execution of the file at [path], and the calls of the
    [_init] and of the [_login] that the file at [path] defined. *)
Inductive event : Type :=
| Debug (msg : string) (arg : string)
| Warn (msg : string) (arg : string)
| Executed (path : string)
| InitCalled (path : string)
| LoginCalled (path : string).

(** The context object, with the module [sys.modules['plugin']] that the
    values of [plugins] refer to. *)
Record t : Type := mkContext {
  hostname : string;
  plugin_dirs : list Json;
  plugins : list (string * module_ref);
  variables : VariableStore.t;
  root_ns : Namespace.t;
  trace : list event;
  plugin_module : PluginModule
}.

(** [Context.__init__]; [lang] is [os.environ['LANG']]. *)
Definition init (lang : string) : t :=
  {| hostname := EmptyString;
     plugin_dirs := [];
     plugins := [];
     variables := VariableStore.init lang;
     root_ns := Namespace.RootNamespace;
     trace := [];
     plugin_module := empty_module |}.

Definition emit (self : t) (e : event) : t :=
  {| hostname := hostname self;
     plugin_dirs := plugin_dirs self;
     plugins := plugins self;
     variables := variables self;
     root_ns := root_ns self;
     trace := trace self ++ [e];
     plugin_module := plugin_module self |}.

Definition set_plugin_dirs (self : t) (dirs : list Json) : t :=
  {| hostname := hostname self;
     plugin_dirs := dirs;
     plugins := plugins self;
     variables := variables self;
     root_ns := root_ns self;
     trace := trace self;
     plugin_module := plugin_module self |}.

Definition set_plugins (self : t) (ps : list (string * module_ref)) : t :=
  {| hostname := hostname self;
     plugin_dirs := plugin_dirs self;
     plugins := ps;
     variables := variables self;
     root_ns := root_ns self;
     trace := trace self;
     plugin_module := plugin_module self |}.

Definition set_root_ns (self : t) (root : Namespace.t) : t :=
  {| hostname := hostname self;
     plugin_dirs := plugin_dirs self;
     plugins := plugins self;
     variables := variables self;
     root_ns := root;
     trace := trace self;
     plugin_module := plugin_module self |}.

Definition set_plugin_module (self : t) (m : PluginModule) : t :=
  {| hostname := hostname self;
     plugin_dirs := plugin_dirs self;
     plugins := plugins self;
     variables := variables self;
     root_ns := root_ns self;
     trace := trace self;
     plugin_module := m |}.

(** [key in data] *)
Definition json_contains (key : string) (data : Json) : result bool :=
  match data with
  | JObj d => Ok (Dict.mem key d)
  | JList l =>
      Ok (existsb (fun x => match x with
                            | JStr s => String.eqb key s
                            | _ => false
                            end) l)
  | JStr s => Ok (substring_of key s)
  | _ => Raise (TypeError "argument is not iterable")
  end.

(** [data[key]] for a string [key] *)
Definition json_getitem (data : Json) (key : string) : result Json :=
  match data with
  | JObj d =>
      match Dict.get key d with
      | Some v => Ok v
      | None => Raise (KeyError key)
      end
  | JList _ => Raise (TypeError "list indices must be integers, not str")
  | JStr _ => Raise (TypeError "string indices must be integers")
  | _ => Raise (TypeError "object has no attribute __getitem__")
  end.

(** The handler [except (IOError, ValueError)] applies to these. *)
Definition is_IOError_or_ValueError (e : exn) : bool :=
  match e with
  | IOError | ValueError _ => true
  | _ => false
  end.

(** [read_config_file(self, file)]: the context after the call and how
    the call ended.  The handler of the [try] block has the single
    statement [raise]. *)
Definition read_config_file (fs : FileSystem) (self : t) (file : string)
  : t * result unit :=
  match json_load fs file with
  | Raise e =>
      if is_IOError_or_ValueError e then (self, Raise e) else (self, Raise e)
  | Ok data =>
      match json_contains "cli" data with
      | Raise e => (self, Raise e)
      | Ok false => (self, Ok tt)
      | Ok true =>
          match json_getitem data "cli" with
          | Raise e => (self, Raise e)
          | Ok cli =>
              match json_contains "plugin-dirs" cli with
              | Raise e => (self, Raise e)
              | Ok false => (self, Ok tt)
              | Ok true =>
                  match json_getitem cli "plugin-dirs" with
                  | Raise e => (self, Raise e)
                  | Ok (JList dirs) =>
                      (set_plugin_dirs self (plugin_dirs self ++ dirs), Ok tt)
                  | Ok _ => (self, Ok tt)
                  end
              end
          end
      end
  end.

Definition cannot_attach : string := "Cannot attach to namespace %s".

(** [attach_namespace(self, path, ns)]: the walk over [splitpath[1:-1]]
    from the root, the warning and the return when a segment is not a
    child of the namespace reached, the registration under
    [splitpath[-1]] otherwise. *)
Definition attach_namespace (self : t) (path : string) (ns : Namespace.t)
  : t * result unit :=
  let splitpath := Py.split "/" path in
  match Namespace.resolve (list_inner splitpath) (root_ns self) with
  | None => (emit self (Warn cannot_attach path), Ok tt)
  | Some _ =>
      match list_last splitpath with
      | Raise e => (self, Raise e)
      | Ok name =>
          (set_root_ns self
             (Namespace.update_at (list_inner splitpath)
                (fun ptr => Namespace.register_namespace ptr name ns)
                (root_ns self)),
           Ok tt)
      end
  end.

(** The calls a plugin's [_init(context)] makes, in order; the first one
    that raises ends the hook. *)
Fixpoint run_attaches (self : t) (calls : list (string * Namespace.t))
  : t * result unit :=
  match calls with
  | [] => (self, Ok tt)
  | (path, ns) :: rest =>
      match attach_namespace self path ns with
      | (self', Ok _) => run_attaches self' rest
      | (self', Raise e) => (self', Raise e)
      end
  end.

(** [plugin._init(self)] *)
Definition run_init (self : t) (hook : InitHook) : t * result unit :=
  match run_attaches self (attaches hook) with
  | (self', Raise e) => (self', Raise e)
  | (self', Ok _) =>
      match init_raises hook with
      | Some e => (self', Raise e)
      | None => (self', Ok tt)
      end
  end.

Definition loading_plugin : string := "Loading plugin from %s".

(** [__try_load_plugin(self, path)]: nothing when [path] is a key of
    [self.plugins]; otherwise the file is executed in the module named
    [plugin] and, when the module has [_init], its own or the one an
    earlier file left, the hook is called and the module is recorded
    under [path].  The assignment to [self.plugins] is inside the
    [if hasattr(plugin, '_init')] block, and an exception of the file or
    of the hook goes to the caller. *)
Definition try_load_plugin (fs : FileSystem) (self : t) (path : string)
  : t * result unit :=
  if Dict.mem path (plugins self) then (self, Ok tt)
  else
    let self1 := emit self (Debug loading_plugin path) in
    match source fs path with
    | Raise e => (self1, Raise e)
    | Ok defs =>
        let plugin := exec_file (plugin_module self1) path defs in
        let self2 := set_plugin_module (emit self1 (Executed path)) plugin in
        match mod_init plugin with
        | Some (owner, hook) =>
            match run_init (emit self2 (InitCalled owner)) hook with
            | (self3, Raise e) => (self3, Raise e)
            | (self3, Ok _) =>
                (set_plugins self3
                   (Dict.set path sys_modules_plugin (plugins self3)),
                 Ok tt)
            end
        | None => (self2, Ok tt)
        end
    end.

(** [login_plugins(self)]: for every value of [self.plugins], the
    [_login] of the module when it has one.  Every value is the one
    module, so the hook called is the same for every key.  The hook is
    plugin code: the call is logged, what the hook does is left out. *)
Definition login_plugins (self : t) : t :=
  fold_left (fun c (i : string * module_ref) =>
               match mod_login (plugin_module c) with
               | Some owner => emit c (LoginCalled owner)
               | None => c
               end)
            (plugins self) self.

(** What [glob] and [os.path] give for an entry of [plugin_dirs], which
    can be any value of the configuration document: the names
    [glob.glob1(dir, "*.py")] lists or the exception it raises, the path
    [os.path.join(dir, name)] or the exception it raises, and the text of
    the entry in a log message. *)
Record Os : Type := mkOs {
  glob1 : Json -> result (list string);
  path_join : Json -> string -> result string;
  show : Json -> string
}.

(** The body of [__discover_plugin_dir] once [glob1] returned: the files
    are loaded in the order listed, and the first exception ends the
    loop. *)
Fixpoint load_listed (os : Os) (fs : FileSystem) (self : t) (dir : Json)
  (names : list string) : t * result unit :=
  match names with
  | [] => (self, Ok tt)
  | i :: rest =>
      match path_join os dir i with
      | Raise e => (self, Raise e)
      | Ok path =>
          match try_load_plugin fs self path with
          | (self', Ok _) => load_listed os fs self' dir rest
          | (self', Raise e) => (self', Raise e)
          end
      end
  end.

(** [__discover_plugin_dir(self, dir)] *)
Definition discover_plugin_dir (os : Os) (fs : FileSystem) (self : t)
  (dir : Json) : t * result unit :=
  match glob1 os dir with
  | Raise e => (self, Raise e)
  | Ok names => load_listed os fs self dir names
  end.

Definition searching : string := "Searching for plugins in %s".

(** The loop of [discover_plugins] over the directories still to be
    searched. *)
Fixpoint discover_dirs (os : Os) (fs : FileSystem) (self : t)
  (dirs : list Json) : t * result unit :=
  match dirs with
  | [] => (self, Ok tt)
  | dir :: rest =>
      match discover_plugin_dir os fs (emit self (Debug searching (show os dir))) dir with
      | (self', Ok _) => discover_dirs os fs self' rest
      | (self', Raise e) => (self', Raise e)
      end
  end.

(** [discover_plugins(self)] *)
Definition discover_plugins (os : Os) (fs : FileSystem) (self : t)
  : t * result unit :=
  discover_dirs os fs self (plugin_dirs self).

(** [print_event(self, event, data)], for the translated text of the
    event: the line being typed is blanked, the text is written under the
    lock, the line is drawn again.  The boolean tells whether the call
    returned; it does not when the lock is held. *)
Definition print_event (out : Output.t) (text : string) : Output.t * bool :=
  let out1 := Output.write out Output.BlankReadline in
  if Output.locked out1 then (out1, false)
  else
    let out2 := Output.acquire out1 in
    let out3 := Output.write out2 (Output.Message text) in
    let out4 := Output.release out3 in
    (Output.write out4 Output.RestoreReadline, true).

End Context.

(** ** class MainLoop *)

Module MainLoop.

Import Namespace.

(** [class PathItem] *)
Record PathItem : Type := mkPathItem {
  name : string;
  ns : Namespace.t
}.

(** The loop object; [builtin_commands] is the class attribute, whose
    three command objects come from the module [commands]. *)
Record t : Type := mkMainLoop {
  context : Context.t;
  builtin_commands : list (string * Command);
  root_path : list PathItem;
  path : list PathItem
}.

(** The dictionary [builtin_commands] for given command objects. *)
Definition builtins (ExitCommand SetenvCommand PrintenvCommand : Command)
  : list (string * Command) :=
  [("exit", ExitCommand); ("setenv", SetenvCommand);
   ("printenv", PrintenvCommand)].

(** [MainLoop.__init__(context)] *)
Definition init (builtin : list (string * Command)) (ctx : Context.t) : t :=
  let root := [mkPathItem (Context.hostname ctx) (Context.root_ns ctx)] in
  {| context := ctx; builtin_commands := builtin;
     root_path := root; path := root |}.

Definition set_path (self : t) (p : list PathItem) : t :=
  {| context := context self; builtin_commands := builtin_commands self;
     root_path := root_path self; path := p |}.

(** [cd(self, name, ns)] *)
Definition cd (self : t) (name : string) (ns : Namespace.t) : t :=
  set_path self (path self ++ [mkPathItem name ns]).

(** The property [cwd]: [self.path[-1]]. *)
Definition cwd (self : t) : result PathItem :=
  list_last (path self).

(** One round of the [for t in tokens] loop of [tokenize]. *)
Definition tokenize_token (t : string) (args : list string)
  (kwargs : gmap string string)
  : result (list string * gmap string string) :=
  try! c0 := Py.first t in
  try! quoted :=
    (if Ascii.eqb c0 dquote
     then (try! c1 := Py.last t in Ok (Ascii.eqb c1 dquote))
     else Ok false) in
  if (quoted : bool) then Ok ((args ++ [inner t])%list, kwargs)
  else if contains "=" t then
    match partition "=" t with
    | (key, eq, value) =>
        try! v0 := Py.first value in
        try! vquoted :=
          (if Ascii.eqb v0 dquote
           then (try! v1 := Py.last value in Ok (Ascii.eqb v1 dquote))
           else Ok false) in
        let value' := if (vquoted : bool) then inner value else value in
        Ok (args, <[key := value']> kwargs)
    end
  else Ok ((args ++ [t])%list, kwargs).

Fixpoint tokenize_loop (tokens : list string) (args : list string)
  (kwargs : gmap string string)
  : result (list string * gmap string string) :=
  match tokens with
  | [] => Ok (args, kwargs)
  | t :: rest =>
      try! r := tokenize_token t args kwargs in
      tokenize_loop rest r.1 r.2
  end.

(** [tokenize(self, line)] *)
Definition tokenize (line : string)
  : result (list string * gmap string string) :=
  try! tokens := Shlex.split line in
  tokenize_loop tokens [] ∅.

(** How the processing of one line ends: the loop goes on to read the
    next line, an exception leaves [repl], or the thread waits for the
    output lock for ever. *)
Inductive outcome : Type :=
| NextLine
| Propagates (e : exn)
| Blocked.

(** The [while tokens] loop of [repl].  [oldpath] is the copy of the path
    taken before the loop.  A builtin runs outside the [try] block; the
    handler [except Exception] prints the error and the traceback and
    leaves the loop, and an exception it does not catch leaves [repl]. *)
Fixpoint dispatch (self : t) (out : Output.t) (oldpath : list PathItem)
  (kwargs : gmap string string) (tokens : list string)
  : t * Output.t * outcome :=
  match tokens with
  | [] => (self, out, NextLine)
  | token :: tokens =>
      match Dict.get token (builtin_commands self) with
      | Some builtin =>
          let out1 := Output.write out (Output.Invoked (cmd_id builtin) tokens kwargs) in
          match run builtin tokens kwargs with
          | Some e => (self, out1, Propagates e)
          | None => (self, out1, NextLine)
          end
      | None =>
          let failed (self' : t) (out' : Output.t) (err : exn) :=
            (self',
             Output.write (Output.write out' (Output.ErrorLine err)) Output.Traceback,
             NextLine) in
          match cwd self with
          | Raise err => failed self out err
          | Ok here =>
              let '(self1, nsfound) :=
                match Dict.get token (namespaces (ns here)) with
                | Some child => (cd self token child, true)
                | None => (self, false)
                end in
              match cwd self1 with
              | Raise err => failed self1 out err
              | Ok here1 =>
                  match Dict.get token (commands (ns here1)) with
                  | Some cmd =>
                      if Output.locked out then (self1, out, Blocked)
                      else
                        let out1 := Output.acquire out in
                        let out2 := Output.write out1 (Output.Invoked (cmd_id cmd) tokens kwargs) in
                        match run cmd tokens kwargs with
                        | Some err =>
                            if is_Exception err then failed self1 out2 err
                            else (self1, out2, Propagates err)
                        | None =>
                            let out3 := Output.release out2 in
                            (set_path self1 oldpath, out3, NextLine)
                        end
                  | None =>
                      if nsfound then dispatch self1 out oldpath kwargs tokens
                      else (self1, Output.write out Output.CommandNotFound, NextLine)
                  end
              end
          end
      end
  end.

(** The body of the [while True] loop of [repl] for the line that
    [raw_input] returned.  [evaluate] is the rest of the body from the
    call of [tokenize] on; the [continue] of the [..] case is inside the
    test [len(self.path) > 1]. *)
Definition repl_line (self : t) (out : Output.t) (raw : string)
  : t * Output.t * outcome :=
  let line := strip raw in
  match line with
  | EmptyString => (self, out, NextLine)
  | String c0 tail =>
      let '(self1, line1) :=
        if Ascii.eqb c0 "/" then (set_path self (root_path self), tail)
        else (self, line) in
      let evaluate :=
        match tokenize line1 with
        | Raise e => (self1, out, Propagates e)
        | Ok (tokens, kwargs) =>
            dispatch self1 out (path self1) kwargs tokens
        end in
      if String.eqb line1 ".." then
        if (1 <? length (path self1))%nat
        then (set_path self1 (removelast (path self1)), out, NextLine)
        else evaluate
      else evaluate
  end.

(** [repl(self)] on the lines the user enters; at the end of the input
    [raw_input] raises [EOFError]. *)
Fixpoint repl (self : t) (out : Output.t) (input : list string)
  : t * Output.t * outcome :=
  match input with
  | [] => (self, out, Propagates EOFError)
  | raw :: rest =>
      match repl_line self out raw with
      | (self', out', NextLine) => repl self' out' rest
      | stop => stop
      end
  end.

(** [l[i]] for an integer [i]: a negative index counts from the end, and
    an index outside the list raises [IndexError]. *)
Definition list_index {A : Type} (l : list A) (i : Z) : result A :=
  let n := Z.of_nat (length l) in
  let j := if i <? 0 then i + n else i in
  if (0 <=? j) && (j <? n) then
    match nth_error l (Z.to_nat j) with
    | Some a => Ok a
    | None => Raise IndexError
    end
  else Raise IndexError.

(** The names offered for completion in the namespace of the frame
    [here]: its child namespaces, its commands and the builtins, in the
    order of the dictionaries. *)
Definition choices (self : t) (here : PathItem) : list string :=
  (map fst (namespaces (ns here)) ++ map fst (commands (ns here))
   ++ map fst (builtin_commands self))%list.

(** [complete(self, text, state)]: the completer given to [readline],
    which calls it with [state] 0, 1, 2, ... until it returns [None]. *)
Definition complete (self : t) (text : string) (state : Z)
  : result (option string) :=
  try! here := cwd self in
  let options := List.filter (fun i => String.prefix text i) (choices self here) in
  if state <? Z.of_nat (length options) then
    (try! o := list_index options state in Ok (Some o))
  else Ok None.

(** The escape character (code 27) and the three control sequences of
    [blank_readline]. *)
Definition esc : ascii := "027"%char.
Definition erase_line : string := String esc "[2K".
Definition up_and_erase : string := String esc "[1A" ++ String esc "[2K".
Definition to_column_0 : string := String esc "[0G".

(** [s * n] *)
Fixpoint repeat_string (s : string) (n : nat) : string :=
  match n with
  | O => EmptyString
  | S n' => s ++ repeat_string s n'
  end.

(** How [blank_readline] ends and what it wrote to the terminal:
    the division by the number of columns raises [ZeroDivisionError]
    when that number is 0. *)
Inductive blanked : Type :=
| Blanked (text : string)
| ZeroDivisionError (text : string).

(** [blank_readline(self)] for the text in the line buffer and the number
    of columns the terminal reports (a signed 16-bit number).  The
    division is the integer division of Python 2 and a string repeated a
    negative number of times is empty. *)
Definition blank_readline (line_buffer : string) (cols : Z) : blanked :=
  let text_len := Z.of_nat (String.length line_buffer) + 2 in
  if cols =? 0 then ZeroDivisionError erase_line
  else
    Blanked (erase_line
             ++ repeat_string up_and_erase (Z.to_nat (text_len / cols))
             ++ to_column_0).

(** [sep.join(l)] *)
Fixpoint join (sep : string) (l : list string) : string :=
  match l with
  | [] => EmptyString
  | [x] => x
  | x :: rest => x ++ sep ++ join sep rest
  end.

(** [__get_prompt(self)] *)
Definition get_prompt (self : t) : string :=
  join "/" (map name (path self)) ++ "> ".

(** [restore_readline(self)]: the text written, for the text in the line
    buffer. *)
Definition restore_readline (self : t) (line_buffer : string) : string :=
  get_prompt self ++ rstrip line_buffer.

End MainLoop.

(** ** The entry point *)

Module Main.

Import Context.

(** The parsed command line: the positional host name and the options
    [--config], [-c], [-l], [-p] and [-D], which are [None] when absent
    ([--config] has a default). *)
Record Args : Type := mkArgs {
  arg_hostname : string;
  arg_config : string;
  arg_c : option string;
  arg_l : option string;
  arg_p : option string;
  arg_D : option (list string)
}.

(** The remote connection, of the module [dispatcher.client]: whether
    each of the three calls [main] makes returns or raises. *)
Record Client : Type := mkClient {
  connect : string -> option exn;
  login_user : string -> option string -> option exn;
  subscribe_events : string -> option exn
}.

(** What the process finds around it: the variable [LANG] of the
    environment ([None] when it is not set, which makes
    [os.environ['LANG']] raise [KeyError]), the file system, the
    connection and the builtin command objects. *)
Record Env : Type := mkEnv {
  lang : option string;
  fs : FileSystem;
  os : Os;
  client : Client;
  builtin_commands : list (string * Namespace.Command)
}.

(** [context.hostname = h] *)
Definition set_hostname (self : Context.t) (h : string) : Context.t :=
  {| hostname := h;
     plugin_dirs := plugin_dirs self;
     plugins := plugins self;
     variables := variables self;
     root_ns := root_ns self;
     trace := trace self;
     plugin_module := plugin_module self |}.

Definition not_a_file_name : string :=
  "coercing to Unicode: need string or buffer, NoneType found".

(** [context.read_config_file(file)] for an argument that can be [None]:
    [open(None, 'r')] raises [TypeError], which the handler of
    [read_config_file] does not catch. *)
Definition read_config_file_arg (fs : FileSystem) (self : Context.t)
  (file : option string) : Context.t * result unit :=
  match file with
  | None => (self, Raise (TypeError not_a_file_name))
  | Some f => read_config_file fs self f
  end.

(** [Context.start(self)]: the plugins are discovered, then the
    connection is opened. *)
Definition start (env : Env) (self : Context.t) : Context.t * result unit :=
  match discover_plugins (os env) (fs env) self with
  | (self', Raise e) => (self', Raise e)
  | (self', Ok _) =>
      match connect (client env) (hostname self') with
      | Some e => (self', Raise e)
      | None => (self', Ok tt)
      end
  end.

(** The truth value of an option: absent and empty are false. *)
Definition given (o : option string) : bool :=
  match o with
  | Some (String _ _) => true
  | _ => false
  end.

(** [main()] for the parsed arguments and the lines entered: the context
    as far as it was built, the terminal and how the process ends.  The
    configuration file read is the value of [-c]. *)
Definition main (env : Env) (args : Args) (input : list string)
  : option Context.t * Output.t * MainLoop.outcome :=
  match lang env with
  | None => (None, Output.init, MainLoop.Propagates (KeyError "LANG"))
  | Some lang =>
      let context := set_hostname (Context.init lang) (arg_hostname args) in
      match read_config_file_arg (fs env) context (arg_c args) with
      | (context, Raise e) => (Some context, Output.init, MainLoop.Propagates e)
      | (context, Ok _) =>
          match start env context with
          | (context, Raise e) => (Some context, Output.init, MainLoop.Propagates e)
          | (context, Ok _) =>
              let logged_in :=
                if given (arg_l args) then
                  match login_user (client env) (default EmptyString (arg_l args))
                          (arg_p args) with
                  | Some e => Raise e
                  | None =>
                      match subscribe_events (client env) "*" with
                      | Some e => Raise e
                      | None => Ok (login_plugins context)
                      end
                  end
                else Ok context in
              match logged_in with
              | Raise e => (Some context, Output.init, MainLoop.Propagates e)
              | Ok context =>
                  match MainLoop.repl (MainLoop.init (builtin_commands env) context)
                          Output.init input with
                  | (ml, out, oc) => (Some (MainLoop.context ml), out, oc)
                  end
              end
          end
      end
  end.

End Main.

(** ** The tokenizer rules in the words of the specification

    A second definition of the handling of one token, total, to compare
    [MainLoop.tokenize_token] with. *)

Module TokenRules.

(** The first and the last character are double quotes. *)
Definition fully_quoted (s : string) : bool :=
  match Py.first s, Py.last s with
  | Ok a, Ok b => Ascii.eqb a dquote && Ascii.eqb b dquote
  | _, _ => false
  end.

(** A quoted value loses its quotes. *)
Definition unquote (s : string) : string :=
  if fully_quoted s then inner s else s.

(** A quoted token is unquoted and appended to the positional arguments;
    a token with [=] is split at the first [=] and the pair is put into
    the keyword mapping; any other token is appended as it is. *)
Definition token_rule (t : string) (args : list string)
  (kwargs : gmap string string) : list string * gmap string string :=
  if fully_quoted t then ((args ++ [inner t])%list, kwargs)
  else if contains "=" t then
    match partition "=" t with
    | (key, _, value) => (args, <[key := unquote value]> kwargs)
    end
  else ((args ++ [t])%list, kwargs).

Fixpoint tokens_rule (tokens : list string) (args : list string)
  (kwargs : gmap string string) : list string * gmap string string :=
  match tokens with
  | [] => (args, kwargs)
  | t :: rest =>
      let r := token_rule t args kwargs in tokens_rule rest r.1 r.2
  end.

(** The token is a keyword argument whose value is the empty string. *)
Definition empty_value (t : string) : bool :=
  negb (fully_quoted t) && contains "=" t
  && match partition "=" t with
     | (_, _, EmptyString) => true
     | _ => false
     end.

End TokenRules.

(** ** Inputs used in the examples *)

Module Examples.

Import Namespace.

(** The line [a b=c "d e"]. *)
Definition line_abc : string :=
  "a b=c " ++ String dquote ("d e" ++ String dquote EmptyString).

(** A command that returns. *)
Definition recorder (id : string) : Command :=
  {| cmd_id := id; run := fun _ _ => None |}.

(** A command that raises. *)
Definition failing (id : string) (e : exn) : Command :=
  {| cmd_id := id; run := fun _ _ => Some e |}.

(** The root with the one namespace [foo] that has the one command
    [bar]. *)
Definition foo_bar_root (bar : Command) : Namespace.t :=
  Node [("foo", Node [] [("bar", bar)])] [].

(** Builtins: [exit] leaves the loop, the other two return. *)
Definition builtin_commands : list (string * Command) :=
  MainLoop.builtins (failing "exit" SystemExit) (recorder "setenv")
                    (recorder "printenv").

(** A file system without a readable configuration file, with a plugin
    file [/p/hooks.py] that defines [_init] (attaching [/foo]) and a
    plugin file [/p/plain.py] that defines only [_login]. *)
Definition files : Context.FileSystem :=
  {| Context.json_load := fun _ => Raise IOError;
     Context.source := fun path =>
       if String.eqb path "/p/hooks.py"
       then Ok {| Context.init_hook :=
                    Some {| Context.attaches := [("/foo", Node [] [])];
                            Context.init_raises := None |};
                  Context.login_hook := false |}
       else if String.eqb path "/p/plain.py"
       then Ok {| Context.init_hook := None; Context.login_hook := true |}
       else Raise IOError |}.

End Examples.

(** ** Predicates on the characters of a line *)

Module Words.

(** Every character of [s] passes the test [p]. *)
Fixpoint all_chars (p : ascii -> bool) (s : string) : bool :=
  match s with
  | EmptyString => true
  | String c s' => p c && all_chars p s'
  end.

(** No character of [s] is white space for [strip]. *)
Definition no_space (s : string) : bool :=
  all_chars (fun c => negb (isspace c)) s.

(** No character of [s] is a single or a double quote. *)
Definition no_quote (s : string) : bool :=
  all_chars (fun c => negb (Shlex.quotes c)) s.

(** The character [c] does not occur in [s]. *)
Definition without (c : ascii) (s : string) : bool :=
  all_chars (fun d => negb (Ascii.eqb d c)) s.

(** A word: not empty, no white space, no quote. *)
Definition word (s : string) : bool :=
  match s with
  | EmptyString => false
  | _ => no_space s && no_quote s
  end.

(** A word that can be typed as a name on a line of the loop: no [=], not
    the parent anchor [..], no [/] in front. *)
Definition name_token (s : string) : bool :=
  word s && without "=" s && negb (String.eqb s "..")
  && match s with
     | String c _ => negb (Ascii.eqb c "/")
     | EmptyString => true
     end.

(** The names [VariableStore.__init__] declares. *)
Definition declared_names : list string :=
  ["output-format"; "datetime-format"; "language"; "prompt"; "timeout";
   "show-events"].

End Words.

(** ** The shape of the navigation path *)

Module Shape.

Import Namespace MainLoop.

(** Every frame holds the child that the namespace of the frame before
    has under the name of the frame. *)
Fixpoint chain (prev : Namespace.t) (frames : list PathItem) : Prop :=
  match frames with
  | [] => True
  | f :: rest =>
      Dict.get (name f) (namespaces prev) = Some (ns f) /\ chain (ns f) rest
  end.

(** The path starts with the frame [root] and goes down the tree from
    it. *)
Definition rooted (root : PathItem) (p : list PathItem) : Prop :=
  exists rest, p = root :: rest /\ chain (ns root) rest.

(** The loop object has the one root frame and a rooted path. *)
Definition well_rooted (root : PathItem) (self : MainLoop.t) : Prop :=
  root_path self = [root] /\ rooted root (path self).

(** The number of command calls in what was written. *)
Definition calls (items : list Output.item) : nat :=
  length (List.filter (fun i => match i with
                           | Output.Invoked _ _ _ => true
                           | _ => false
                           end) items).

(** The line tokenized into [tokens] and [kwargs] ended in a command call
    that raised: some token of the line names, in the namespace where the
    loop stands after the line, a command whose [run] raises on the tokens
    after it, and the record of that call, followed by the report of the
    error when the loop caught it, is all the line wrote. *)
Definition raised_call (kwargs : gmap string string) (tokens : list string)
  (out : Output.t) (final : MainLoop.t) (after : Output.t) : Prop :=
  exists (prefix : list string) (token : string) (args : list string)
         (here : PathItem) (cmd : Command) (err : exn),
    tokens = (prefix ++ token :: args)%list
    /\ cwd final = Ok here
    /\ Dict.get token (commands (ns here)) = Some cmd
    /\ run cmd args kwargs = Some err
    /\ Output.written after
       = (Output.written out
          ++ Output.Invoked (cmd_id cmd) args kwargs
             :: (if is_Exception err
                 then [Output.ErrorLine err; Output.Traceback]
                 else []))%list.

(** The names of the frames below the root as the prompt shows them:
    each one after a [/]. *)
Fixpoint below (frames : list PathItem) : string :=
  match frames with
  | [] => EmptyString
  | f :: rest => "/" ++ name f ++ below rest
  end.

(** What the dispatch of one line can do to the terminal, from the state
    [out] of the terminal to the state after the line and the outcome of
    the line: nothing; a builtin call outside the lock; the message that
    no command was found; the report of a failed lookup; a wait for a lock
    that is held; a command call under the lock that returns, with the
    lock given back; a command call under the lock that raises, with the
    lock kept. *)
Inductive footprint (kwargs : gmap string string) (out : Output.t)
  : Output.t -> outcome -> Prop :=
| fp_idle :
    footprint kwargs out out NextLine
| fp_builtin (b : Command) (args : list string) :
    footprint kwargs out
      (Output.write out (Output.Invoked (cmd_id b) args kwargs))
      (match run b args kwargs with
       | Some e => Propagates e
       | None => NextLine
       end)
| fp_not_found :
    footprint kwargs out (Output.write out Output.CommandNotFound) NextLine
| fp_lookup_failed (err : exn) :
    footprint kwargs out
      (Output.write (Output.write out (Output.ErrorLine err)) Output.Traceback)
      NextLine
| fp_blocked :
    Output.locked out = true ->
    footprint kwargs out out Blocked
| fp_returned (cmd : Command) (args : list string) :
    Output.locked out = false ->
    run cmd args kwargs = None ->
    footprint kwargs out
      (Output.release
         (Output.write (Output.acquire out)
            (Output.Invoked (cmd_id cmd) args kwargs)))
      NextLine
| fp_raised (cmd : Command) (args : list string) (err : exn) :
    Output.locked out = false ->
    run cmd args kwargs = Some err ->
    is_Exception err = true ->
    footprint kwargs out
      (Output.write
         (Output.write
            (Output.write (Output.acquire out)
               (Output.Invoked (cmd_id cmd) args kwargs))
            (Output.ErrorLine err))
         Output.Traceback)
      NextLine
| fp_escaped (cmd : Command) (args : list string) (err : exn) :
    Output.locked out = false ->
    run cmd args kwargs = Some err ->
    is_Exception err = false ->
    footprint kwargs out
      (Output.write (Output.acquire out)
         (Output.Invoked (cmd_id cmd) args kwargs))
      (Propagates err).

End Shape.

(** ** The shape of a configuration document *)

Module Config.

Import Context.

(** The list under [cli] / [plugin-dirs] of a document made of objects,
    and the empty list when a key is absent or the value is not a list. *)
Definition configured_dirs (data : Json) : list Json :=
  match data with
  | JObj d =>
      match Dict.get "cli" d with
      | Some (JObj c) =>
          match Dict.get "plugin-dirs" c with
          | Some (JList dirs) => dirs
          | _ => []
          end
      | _ => []
      end
  | _ => []
  end.

(** The document has an object at the top and, under [cli], nothing or an
    object. *)
Definition well_formed (data : Json) : bool :=
  match data with
  | JObj d =>
      match Dict.get "cli" d with
      | None | Some (JObj _) => true
      | _ => false
      end
  | _ => false
  end.

(** [null], a boolean or a number. *)
Definition scalar (data : Json) : bool :=
  match data with
  | JNull | JBool _ | JNum _ => true
  | _ => false
  end.

(** Every file listed in the directories is recorded in [c]. *)
Definition covered (os : Os) (c : Context.t) (dirs : list Json) : Prop :=
  forall dir, In dir dirs ->
    exists names,
      glob1 os dir = Ok names
      /\ forall i, In i names ->
           exists p, path_join os dir i = Ok p
                     /\ Dict.mem p (plugins c) = true.

(** The recorded plugins only grow from [c] to [c'], and the directories
    stay. *)
Definition grows (c c' : Context.t) : Prop :=
  (forall p, Dict.mem p (plugins c) = true -> Dict.mem p (plugins c') = true)
  /\ plugin_dirs c' = plugin_dirs c.

End Config.

(** * Properties *)

(** ** The variable store *)

Section VariableStoreFacts.

Import VariableStore.

(** A call of [Variable.set] that returns hands back the variable it was
    called on. *)
Lemma Variable_set_returns_self (self var' : Variable_) (v : value) :
  Variable_set self v = Ok var' -> var' = self.
Proof.
  unfold Variable_set, Py.bind.
  destruct (if pytype_eqb (type self) T_int then int v else Ok v) as [v1|];
    [|discriminate].
  destruct (choices self) as [cs|].
  - destruct (negb (value_in v1 cs)); [discriminate | congruence].
  - congruence.
Qed.

(** No call of [set] changes the store, whatever its outcome. *)
Lemma set_keeps_store (self : VariableStore.t) (name : string) (v : value) :
  (VariableStore.set self name v).1 = self.
Proof.
  unfold VariableStore.set, lookup_variable.
  destruct (variables self !! name) as [var|] eqn:Hvar; [|reflexivity].
  destruct (Variable_set var v) as [var'|e] eqn:Hset; [|reflexivity].
  apply Variable_set_returns_self in Hset. subst var'. simpl.
  destruct self as [m]. simpl in *. f_equal. by apply insert_id.
Qed.

(** [get] after [set] is [get] before it. *)
Lemma get_after_set (self : VariableStore.t) (name name' : string) (v : value) :
  get (VariableStore.set self name v).1 name' = get self name'.
Proof. by rewrite set_keeps_store. Qed.

Lemma timeout_of_init (lang : string) :
  variables (init lang) !! "timeout" = Some (Variable_init (PyInt 10) T_int None).
Proof. reflexivity. Qed.

Lemma output_format_of_init (lang : string) :
  variables (init lang) !! "output-format"
  = Some (Variable_init (PyStr "ascii") T_str (Some [PyStr "ascii"; PyStr "json"])).
Proof. reflexivity. Qed.

(** C1, at the input of the claim: [set('timeout', '5')] returns without
    an error, the string is coerced to [5] on the way, and the following
    [get('timeout')] is still the default [10], not [5]: the coerced value
    is never stored. *)
Theorem C1_set_timeout_not_stored (lang : string) :
  let r := VariableStore.set (init lang) "timeout" (PyStr "5") in
  int (PyStr "5") = Ok (PyInt 5)
  /\ r.2 = Ok tt
  /\ get r.1 "timeout" = Ok (PyInt 10)
  /\ get r.1 "timeout" <> Ok (PyInt 5).
Proof.
  intros r. split; [reflexivity|].
  assert (Hr : r.2 = Ok tt).
  { unfold r, VariableStore.set, lookup_variable.
    rewrite timeout_of_init. reflexivity. }
  assert (Hg : get r.1 "timeout" = Ok (PyInt 10)).
  { unfold r. rewrite get_after_set. unfold get, lookup_variable.
    rewrite timeout_of_init. reflexivity. }
  split; [exact Hr|]. split; [exact Hg|].
  rewrite Hg. discriminate.
Qed.

(** C7: in a store whose [timeout] is declared [int], [set('timeout',
    'abc')] raises the [ValueError] of the coercion; in a store whose
    [output-format] is a string with the choices [ascii] and [json],
    [set('output-format', 'xml')] raises the [ValueError] of the choice
    check; in both cases the store after the call is the store before it,
    so each variable keeps its prior value. *)
Theorem C7_set_invalid_fails_and_keeps_value
  (self : VariableStore.t) (tv ov : Variable_) :
  variables self !! "timeout" = Some tv ->
  type tv = T_int ->
  variables self !! "output-format" = Some ov ->
  type ov = T_str ->
  choices ov = Some [PyStr "ascii"; PyStr "json"] ->
  VariableStore.set self "timeout" (PyStr "abc")
    = (self, Raise (ValueError invalid_literal))
  /\ VariableStore.set self "output-format" (PyStr "xml")
    = (self, Raise (ValueError not_a_choice))
  /\ get (VariableStore.set self "timeout" (PyStr "abc")).1 "timeout"
    = Ok (value_ tv)
  /\ get (VariableStore.set self "output-format" (PyStr "xml")).1 "output-format"
    = Ok (value_ ov).
Proof.
  intros Ht Htt Ho Hot Hoc.
  assert (H1 : VariableStore.set self "timeout" (PyStr "abc")
               = (self, Raise (ValueError invalid_literal))).
  { unfold VariableStore.set, lookup_variable. rewrite Ht.
    unfold Variable_set. rewrite Htt. reflexivity. }
  assert (H2 : VariableStore.set self "output-format" (PyStr "xml")
               = (self, Raise (ValueError not_a_choice))).
  { unfold VariableStore.set, lookup_variable. rewrite Ho.
    unfold Variable_set. rewrite Hot, Hoc. reflexivity. }
  rewrite H1, H2. simpl. unfold get, lookup_variable. rewrite Ht, Ho.
  repeat split.
Qed.

(** The store the program builds meets the conditions of C7. *)
Lemma C7_witness :
  VariableStore.set (init "C") "timeout" (PyStr "abc")
    = (init "C", Raise (ValueError invalid_literal))
  /\ VariableStore.set (init "C") "output-format" (PyStr "xml")
    = (init "C", Raise (ValueError not_a_choice))
  /\ get (VariableStore.set (init "C") "timeout" (PyStr "abc")).1 "timeout"
    = Ok (PyInt 10)
  /\ get (VariableStore.set (init "C") "output-format" (PyStr "xml")).1 "output-format"
    = Ok (PyStr "ascii").
Proof.
  apply (C7_set_invalid_fails_and_keeps_value (init "C")
           (Variable_init (PyInt 10) T_int None)
           (Variable_init (PyStr "ascii") T_str (Some [PyStr "ascii"; PyStr "json"])));
    reflexivity.
Defined.

End VariableStoreFacts.

(** ** The tokenizer *)

Section TokenizerFacts.

Import MainLoop TokenRules.

Lemma snoc_nonempty (tok : string) (c : ascii) : Shlex.snoc tok c <> EmptyString.
Proof. destruct tok; discriminate. Qed.

(** The lexer never emits the empty token. *)
Lemma read_tokens_nonempty (input : string) :
  forall (st : Shlex.lexstate) (tok : string) (ts : list string),
    (st <> Shlex.Between -> tok <> EmptyString) ->
    Shlex.read_tokens st tok input = Ok ts ->
    Forall (fun t => t <> EmptyString) ts.
Proof.
  induction input as [|c rest IH]; intros st tok ts Hinv Hrun; simpl in Hrun.
  - destruct st; inversion Hrun; subst.
    + constructor.
    + constructor; [|constructor]. apply Hinv. discriminate.
  - destruct st as [| |q].
    + destruct (Shlex.whitespace c); [|destruct (Shlex.wordchars c); [|destruct (Shlex.quotes c)]];
        (eapply IH; [|exact Hrun]); intros Hne;
        first [discriminate | by destruct Hne].
    + destruct (Shlex.whitespace c).
      * unfold Py.bind in Hrun.
        destruct (Shlex.read_tokens Shlex.Between EmptyString rest) as [ts'|] eqn:Hrest;
          [|discriminate].
        inversion Hrun; subst. constructor.
        -- apply Hinv. discriminate.
        -- eapply IH; [|exact Hrest]. intros Hne. by destruct Hne.
      * eapply IH; [|exact Hrun]. intros _. apply snoc_nonempty.
    + destruct (Ascii.eqb c q).
      * unfold Py.bind in Hrun.
        destruct (Shlex.read_tokens Shlex.Between EmptyString rest) as [ts'|] eqn:Hrest;
          [|discriminate].
        inversion Hrun; subst. constructor.
        -- apply snoc_nonempty.
        -- eapply IH; [|exact Hrest]. intros Hne. by destruct Hne.
      * eapply IH; [|exact Hrun]. intros _. apply snoc_nonempty.
Qed.

Lemma split_nonempty (line : string) (ts : list string) :
  Shlex.split line = Ok ts -> Forall (fun t => t <> EmptyString) ts.
Proof.
  unfold Shlex.split. apply read_tokens_nonempty. intros Hne. by destruct Hne.
Qed.

Lemma last_nonempty (s : string) : s <> EmptyString -> exists c, Py.last s = Ok c.
Proof.
  induction s as [|c s IH]; [congruence|]. intros _.
  destruct s as [|d s']; [by exists c|].
  destruct IH as [x Hx]; [discriminate|]. exists x. exact Hx.
Qed.

(** The test [t[0] == '"' and t[-1] == '"'] on a token that is not
    empty. *)
Lemma quoted_test (t : string) :
  t <> EmptyString ->
  (try! c0 := Py.first t in
   if Ascii.eqb c0 dquote
   then (try! c1 := Py.last t in Ok (Ascii.eqb c1 dquote))
   else Ok false) = Ok (fully_quoted t).
Proof.
  intros Hne. unfold fully_quoted.
  destruct (last_nonempty t Hne) as [c1 Hc1].
  destruct t as [|c0 t']; [congruence|].
  rewrite Hc1. simpl Py.first. unfold Py.bind.
  destruct (Ascii.eqb c0 dquote); reflexivity.
Qed.

(** On a token that is not empty and is not a keyword argument with an
    empty value, the code does what the three rules say. *)
Lemma tokenize_token_rule (t : string) (args : list string)
  (kwargs : gmap string string) :
  t <> EmptyString ->
  empty_value t = false ->
  tokenize_token t args kwargs = Ok (token_rule t args kwargs).
Proof.
  intros Hne Hval. unfold tokenize_token, token_rule.
  pose proof (quoted_test t Hne) as Hq. unfold Py.bind in Hq |- *.
  destruct (Py.first t) as [c0|]; [|discriminate].
  destruct (if Ascii.eqb c0 dquote
            then match Py.last t with
                 | Ok a => Ok (Ascii.eqb a dquote)
                 | Raise e => Raise e
                 end
            else Ok false) as [b|]; [|discriminate].
  injection Hq as ->.
  unfold empty_value in Hval.
  destruct (fully_quoted t); [reflexivity|].
  destruct (contains "=" t); [|reflexivity].
  destruct (partition "=" t) as [[key eq] value].
  simpl in Hval.
  assert (Hv : value <> EmptyString) by (destruct value; [discriminate|discriminate]).
  pose proof (quoted_test value Hv) as Hqv. unfold Py.bind in Hqv.
  destruct (Py.first value) as [v0|]; [|discriminate].
  destruct (if Ascii.eqb v0 dquote
            then match Py.last value with
                 | Ok a => Ok (Ascii.eqb a dquote)
                 | Raise e => Raise e
                 end
            else Ok false) as [b|]; [|discriminate].
  injection Hqv as ->. reflexivity.
Qed.

Lemma tokenize_loop_rule (tokens : list string) :
  forall (args : list string) (kwargs : gmap string string),
    Forall (fun t => t <> EmptyString) tokens ->
    Forall (fun t => empty_value t = false) tokens ->
    tokenize_loop tokens args kwargs = Ok (tokens_rule tokens args kwargs).
Proof.
  induction tokens as [|t rest IH]; intros args kwargs Hne Hval; [reflexivity|].
  inversion Hne; subst. inversion Hval; subst. simpl.
  rewrite tokenize_token_rule by assumption. simpl. by apply IH.
Qed.

(** [tokenize] returns on every line the lexer splits into tokens none of
    which is a keyword argument with an empty value, and what it returns
    is what the rules give. *)
Lemma tokenize_returns (line : string) (tokens : list string) :
  Shlex.split line = Ok tokens ->
  Forall (fun t => empty_value t = false) tokens ->
  tokenize line = Ok (tokens_rule tokens [] ∅).
Proof.
  intros Hsplit Hval. unfold tokenize. rewrite Hsplit. simpl.
  apply tokenize_loop_rule; [|exact Hval]. by eapply split_nonempty.
Qed.

(** A later pair of a key replaces the earlier one. *)
Lemma keyword_overwrites (key v1 v2 : string) (kwargs : gmap string string) :
  <[key := v2]> (<[key := v1]> kwargs) = <[key := v2]> kwargs.
Proof. apply insert_insert_eq. Qed.

(** C3: the example of the claim holds, [tokenize('a b=c "d e"')] is
    [(["a", "d e"], {"b": "c"})], and so do the rules for quoted and for
    plain tokens; the rule for a token with [=] does not hold for the
    token [k=], on which the rule gives the pair [("k", "")] and the code
    raises [IndexError] at [value[0]]. *)
Theorem C3_tokenize_example_and_empty_value :
  tokenize Examples.line_abc = Ok (["a"; "d e"], {["b" := "c"]})
  /\ token_rule "k=" [] ∅ = ([], {["k" := ""]})
  /\ tokenize_token "k=" [] ∅ = Raise IndexError
  /\ tokenize "k=" = Raise IndexError.
Proof. repeat split. Qed.

(** C10: the lexer splits the line [key=] into the one token [key=], and
    [tokenize] raises [IndexError] on it; the exception is raised outside
    the [try] block of [repl], so it leaves the loop. *)
Theorem C10_tokenize_raises_on_empty_value :
  Shlex.split "key=" = Ok ["key="]
  /\ tokenize "key=" = Raise IndexError
  /\ forall (self : MainLoop.t) (out : Output.t),
       repl_line self out "key=" = (self, out, Propagates IndexError).
Proof. repeat split. Qed.

End TokenizerFacts.

(** ** Dictionaries and list primitives *)

Section DictFacts.

Context {V : Type}.

Lemma dict_get_set (key : string) (v : V) (d : list (string * V)) :
  Dict.get key (Dict.set key v d) = Some v.
Proof.
  induction d as [|[k w] d IH]; simpl.
  - by rewrite String.eqb_refl.
  - destruct (String.eqb key k) eqn:Hk; simpl; rewrite Hk; [reflexivity | exact IH].
Qed.

Lemma dict_mem_set (key : string) (v : V) (d : list (string * V)) :
  Dict.mem key (Dict.set key v d) = true.
Proof. unfold Dict.mem. by rewrite dict_get_set. Qed.

End DictFacts.

Lemma list_last_cons {A : Type} (a : A) (l : list A) :
  exists x, list_last (a :: l) = Ok x.
Proof.
  revert a. induction l as [|b l IH]; intros a.
  - by exists a.
  - destruct (IH b) as [x Hx]. exists x. exact Hx.
Qed.

Lemma py_split_cons (c : ascii) (s : string) :
  exists p ps, Py.split c s = p :: ps.
Proof.
  induction s as [|d s IH]; simpl; [by eauto|].
  destruct (Ascii.eqb c d); [by eauto|].
  destruct IH as (p & ps & ->). by eauto.
Qed.

(** [splitpath[-1]] never raises. *)
Lemma py_split_last (c : ascii) (s : string) :
  exists name, list_last (Py.split c s) = Ok name.
Proof.
  destruct (py_split_cons c s) as (p & ps & ->). apply list_last_cons.
Qed.

(** ** The session context *)

Section ContextFacts.

Import Namespace Context.

(** After the object reached along [segs] is changed in place, the same
    walk reaches the changed object. *)
Lemma resolve_update_at (f : Namespace.t -> Namespace.t) (segs : list string) :
  forall (root parent : Namespace.t),
    resolve segs root = Some parent ->
    resolve segs (update_at segs f root) = Some (f parent).
Proof.
  induction segs as [|n rest IH]; intros root parent Hres; simpl in *.
  - congruence.
  - destruct (Dict.get n (namespaces root)) as [child|] eqn:Hchild; [|discriminate].
    simpl. rewrite dict_get_set. by apply IH.
Qed.

(** [attach_namespace] never raises. *)
Lemma attach_namespace_returns (self : Context.t) (path : string) (ns : Namespace.t) :
  (attach_namespace self path ns).2 = Ok tt.
Proof.
  unfold attach_namespace.
  destruct (resolve _ _); [|reflexivity].
  destruct (py_split_last "/" path) as [name ->]. reflexivity.
Qed.

(** [attach_namespace] leaves the recorded plugins alone. *)
Lemma attach_namespace_plugins (self : Context.t) (path : string) (ns : Namespace.t) :
  plugins (attach_namespace self path ns).1 = plugins self.
Proof.
  unfold attach_namespace.
  destruct (resolve _ _); [|reflexivity].
  destruct (py_split_last "/" path) as [name ->]. reflexivity.
Qed.

Lemma run_attaches_returns (calls : list (string * Namespace.t)) :
  forall self : Context.t,
    (run_attaches self calls).2 = Ok tt
    /\ plugins (run_attaches self calls).1 = plugins self.
Proof.
  induction calls as [|[path ns] rest IH]; intros self; simpl; [by split|].
  pose proof (attach_namespace_returns self path ns) as Hok.
  pose proof (attach_namespace_plugins self path ns) as Hpl.
  destruct (attach_namespace self path ns) as [self' r]. simpl in *. subst r.
  destruct (IH self') as [H1 H2]. split; [exact H1 | congruence].
Qed.

(** A hook that does not raise returns, and does not touch the recorded
    plugins. *)
Lemma run_init_returns (self : Context.t) (hook : InitHook) :
  init_raises hook = None ->
  (run_init self hook).2 = Ok tt
  /\ plugins (run_init self hook).1 = plugins self.
Proof.
  intros Hret. unfold run_init.
  destruct (run_attaches_returns (attaches hook) self) as [Hok Hpl].
  destruct (run_attaches self (attaches hook)) as [self' r]. simpl in *.
  subst r. rewrite Hret. by split.
Qed.

(** C6: when a segment of [splitpath[1:-1]] is not a child of the
    namespace reached so far, [attach_namespace] returns without an
    exception, logs the warning and leaves the tree as it was; when the
    walk reaches a parent, as it does once the missing segment has been
    attached, the call returns and the walk in the new tree reaches that
    parent with [ns] registered under the last segment. *)
Theorem C6_attach_namespace_missing_then_present
  (self : Context.t) (path : string) (ns : Namespace.t) :
  let segs := list_inner (Py.split "/" path) in
  (resolve segs (root_ns self) = None ->
     attach_namespace self path ns = (emit self (Warn cannot_attach path), Ok tt)
     /\ root_ns (attach_namespace self path ns).1 = root_ns self)
  /\ (forall parent : Namespace.t,
        resolve segs (root_ns self) = Some parent ->
        exists name : string,
          list_last (Py.split "/" path) = Ok name
          /\ (attach_namespace self path ns).2 = Ok tt
          /\ resolve segs (root_ns (attach_namespace self path ns).1)
             = Some (register_namespace parent name ns)
          /\ Dict.get name (namespaces (register_namespace parent name ns))
             = Some ns).
Proof.
  intros segs. split.
  - intros Hnone. unfold attach_namespace. fold segs. rewrite Hnone. by split.
  - intros parent Hsome.
    destruct (py_split_last "/" path) as [name Hname]. exists name.
    split; [exact Hname|]. split; [apply attach_namespace_returns|].
    split.
    + unfold attach_namespace. fold segs. rewrite Hsome, Hname. simpl.
      by apply (resolve_update_at (fun ptr => register_namespace ptr name ns)).
    + destruct parent as [nslist cmdlist]. simpl. apply dict_get_set.
Qed.

(** The order of the claim on the empty root: [/foo/bar] cannot be
    attached and the tree stays empty; after [/foo] is attached the same
    call puts the namespace under [bar] in [foo]. *)
Lemma C6_witness :
  let leaf := Node [] [] in
  let c0 := Context.init "C" in
  let c1 := (attach_namespace c0 "/foo/bar" leaf).1 in
  let c2 := (attach_namespace c1 "/foo" leaf).1 in
  let c3 := (attach_namespace c2 "/foo/bar" leaf).1 in
  root_ns c1 = root_ns c0
  /\ resolve ["foo"] (root_ns c3) = Some (Node [("bar", leaf)] []).
Proof.
  intros leaf c0 c1 c2 c3. split.
  - apply (proj1 (C6_attach_namespace_missing_then_present c0 "/foo/bar" leaf)).
    reflexivity.
  - destruct (proj2 (C6_attach_namespace_missing_then_present c2 "/foo/bar" leaf)
                leaf eq_refl) as (name & Hname & _ & Hres & _).
    vm_compute in Hname. injection Hname as <-. exact Hres.
Defined.

(** C5, as the code has it: when opening or parsing the file raises, the
    exception is raised again to the caller and the context, with its
    list of plugin directories, is the one before the call. *)
Theorem C5_read_config_file_reraises
  (fs : FileSystem) (self : Context.t) (file : string) (e : exn) :
  json_load fs file = Raise e ->
  read_config_file fs self file = (self, Raise e)
  /\ plugin_dirs (read_config_file fs self file).1 = plugin_dirs self.
Proof.
  intros Hload. unfold read_config_file. rewrite Hload.
  destruct (is_IOError_or_ValueError e); by split.
Qed.

Lemma C5_witness :
  read_config_file Examples.files (Context.init "C") "/usr/local/etc/middleware.conf"
    = (Context.init "C", Raise IOError)
  /\ plugin_dirs (read_config_file Examples.files (Context.init "C")
                    "/usr/local/etc/middleware.conf").1 = [].
Proof.
  apply (C5_read_config_file_reraises Examples.files (Context.init "C")
           "/usr/local/etc/middleware.conf" IOError).
  reflexivity.
Defined.

(** C5 as the claim words it fails: on a file that cannot be opened the
    call does not return, it raises [IOError] to its caller. *)
Lemma C5_counterexample :
  ~ (exists self' : Context.t,
       read_config_file Examples.files (Context.init "C")
         "/usr/local/etc/middleware.conf" = (self', Ok tt)).
Proof. intros [self' H]. discriminate H. Qed.

End ContextFacts.

(** ** Plugin loading *)

Section PluginFacts.

Import Namespace Context.

Lemma trace_emit (self : Context.t) (e : event) :
  trace (emit self e) = (trace self ++ [e])%list.
Proof. reflexivity. Qed.

Lemma plugins_emit (self : Context.t) (e : event) :
  plugins (emit self e) = plugins self.
Proof. reflexivity. Qed.

(** A path that is a key of [self.plugins] is not loaded again. *)
Lemma try_load_plugin_known (fs : FileSystem) (self : Context.t) (path : string) :
  Dict.mem path (plugins self) = true ->
  try_load_plugin fs self path = (self, Ok tt).
Proof. intros Hmem. unfold try_load_plugin. by rewrite Hmem. Qed.

(** The module holds the [_init] of the file that ran in it last, when
    the file defines one. *)
Lemma mod_init_exec_file (m : PluginModule) (path : string) (plugin : Plugin)
  (hook : InitHook) :
  init_hook plugin = Some hook ->
  mod_init (exec_file m path plugin) = Some (path, hook).
Proof. intros Hinit. unfold exec_file. simpl. by rewrite Hinit. Qed.

(** What one load of a fresh path does when the file defines [_init]. *)
Lemma try_load_plugin_with_init
  (fs : FileSystem) (self : Context.t) (path : string) (plugin : Plugin)
  (hook : InitHook) :
  source fs path = Ok plugin ->
  init_hook plugin = Some hook ->
  Dict.mem path (plugins self) = false ->
  try_load_plugin fs self path
  = match run_init
            (emit (set_plugin_module
                     (emit (emit self (Debug loading_plugin path)) (Executed path))
                     (exec_file (plugin_module self) path plugin))
                  (InitCalled path)) hook with
    | (self3, Raise e) => (self3, Raise e)
    | (self3, Ok _) =>
        (set_plugins self3 (Dict.set path sys_modules_plugin (plugins self3)),
         Ok tt)
    end.
Proof.
  intros Hsrc Hinit Hmem. unfold try_load_plugin. rewrite Hmem, Hsrc.
  cbv zeta. change (plugin_module (emit self (Debug loading_plugin path)))
    with (plugin_module self).
  by rewrite (mod_init_exec_file _ path plugin hook Hinit).
Qed.

(** C4, as the code has it: for a path whose file defines an [_init]
    that returns, the second load does nothing at all, since the first
    load recorded the path: the context after two loads is the context
    after one, no file is executed and no hook is called. *)
Theorem C4_load_twice_with_init
  (fs : FileSystem) (self : Context.t) (path : string) (plugin : Plugin)
  (hook : InitHook) :
  source fs path = Ok plugin ->
  init_hook plugin = Some hook ->
  init_raises hook = None ->
  let once := (try_load_plugin fs self path).1 in
  (try_load_plugin fs self path).2 = Ok tt
  /\ Dict.mem path (plugins once) = true
  /\ try_load_plugin fs once path = (once, Ok tt).
Proof.
  intros Hsrc Hinit Hret once.
  assert (H : (try_load_plugin fs self path).2 = Ok tt
              /\ Dict.mem path (plugins once) = true).
  { unfold once.
    destruct (Dict.mem path (plugins self)) eqn:Hmem;
      [by rewrite try_load_plugin_known|].
    rewrite (try_load_plugin_with_init fs self path plugin hook Hsrc Hinit Hmem).
    set (c := emit _ (InitCalled path)).
    destruct (run_init_returns c hook Hret) as [Hok _].
    destruct (run_init c hook) as [self3 r]. simpl in Hok. subst r. simpl.
    split; [reflexivity | apply dict_mem_set]. }
  destruct H as [Hok Hmem].
  split; [exact Hok|]. split; [exact Hmem|].
  by apply try_load_plugin_known.
Qed.

(** [/p/hooks.py] defines [_init]: it is executed once and its namespace
    is attached once. *)
Lemma C4_witness :
  let once := (try_load_plugin Examples.files (Context.init "C") "/p/hooks.py").1 in
  (try_load_plugin Examples.files (Context.init "C") "/p/hooks.py").2 = Ok tt
  /\ Dict.mem "/p/hooks.py" (plugins once) = true
  /\ try_load_plugin Examples.files once "/p/hooks.py" = (once, Ok tt).
Proof.
  apply (C4_load_twice_with_init Examples.files (Context.init "C") "/p/hooks.py"
           {| init_hook := Some {| attaches := [("/foo", Node [] [])];
                                   init_raises := None |};
              login_hook := false |}
           {| attaches := [("/foo", Node [] [])]; init_raises := None |});
    reflexivity.
Defined.

(** C4 as the claim words it fails: [/p/plain.py] defines [_login] only;
    its first load executes the file and records nothing, so the second
    load executes the file again, and two loads do not leave the context
    one load leaves. *)
Lemma C4_counterexample :
  let once := (try_load_plugin Examples.files (Context.init "C") "/p/plain.py").1 in
  let twice := (try_load_plugin Examples.files once "/p/plain.py").1 in
  trace once = [Debug loading_plugin "/p/plain.py"; Executed "/p/plain.py"]
  /\ plugins once = []
  /\ trace twice = [Debug loading_plugin "/p/plain.py"; Executed "/p/plain.py";
                    Debug loading_plugin "/p/plain.py"; Executed "/p/plain.py"]
  /\ twice <> once.
Proof.
  repeat split. intros Heq. discriminate Heq.
Qed.

(** Loaded alone, [/p/plain.py] is not recorded and its [_login] is not
    called.  Loaded after [/p/hooks.py] it is recorded, since the module
    still has the [_init] of [/p/hooks.py], and its [_login] is called
    for both paths. *)
Example plain_alone_and_after_hooks :
  let alone := (try_load_plugin Examples.files (Context.init "C") "/p/plain.py").1 in
  let hooks := (try_load_plugin Examples.files (Context.init "C") "/p/hooks.py").1 in
  let both := (try_load_plugin Examples.files hooks "/p/plain.py").1 in
  trace (login_plugins alone) = trace alone
  /\ plugins both = [("/p/hooks.py", sys_modules_plugin);
                     ("/p/plain.py", sys_modules_plugin)]
  /\ trace (login_plugins both)
     = (trace both ++ [LoginCalled "/p/plain.py"; LoginCalled "/p/plain.py"])%list.
Proof. by repeat split. Qed.

End PluginFacts.

(** ** The read-eval loop *)

Section MainLoopFacts.

Import Namespace MainLoop.

Lemma list_last_snoc {A : Type} (l : list A) (x : A) :
  list_last (l ++ [x])%list = Ok x.
Proof.
  unfold list_last. rewrite map_app. simpl. by rewrite last_last.
Qed.

(** After [cd] the current frame is the one just pushed. *)
Lemma cwd_cd (self : MainLoop.t) (name : string) (child : Namespace.t) :
  cwd (cd self name child) = Ok (mkPathItem name child).
Proof. apply list_last_snoc. Qed.

(** A line that is not blank, does not start with [/] and is not [..] is
    tokenized and dispatched from the current path. *)
Lemma repl_line_evaluates (self : MainLoop.t) (out : Output.t)
  (raw : string) (c0 : ascii) (tail : string) :
  strip raw = String c0 tail ->
  Ascii.eqb c0 "/" = false ->
  String.eqb (String c0 tail) ".." = false ->
  repl_line self out raw =
  match tokenize (String c0 tail) with
  | Raise e => (self, out, Propagates e)
  | Ok (tokens, kwargs) => dispatch self out (path self) kwargs tokens
  end.
Proof.
  intros Hstrip Hslash Hdots. unfold repl_line.
  rewrite Hstrip, Hslash, Hdots. reflexivity.
Qed.

(** The line [..] below the root pops one frame and nothing else is done
    with the line. *)
Lemma repl_line_parent_below_root (self : MainLoop.t) (out : Output.t) :
  (1 < length (path self))%nat ->
  repl_line self out ".." = (set_path self (removelast (path self)), out, NextLine)
  /\ length (path (repl_line self out "..").1.1) = (length (path self) - 1)%nat.
Proof.
  intros Hdepth.
  assert (H : repl_line self out ".."
              = (set_path self (removelast (path self)), out, NextLine)).
  { unfold repl_line. simpl.
    destruct (Nat.ltb_spec 1 (length (path self))) as [_|Hle]; [reflexivity | lia]. }
  split; [exact H|]. rewrite H. simpl.
  destruct (path self) as [|a l] eqn:Hp using rev_ind; [simpl in Hdepth; lia|].
  rewrite removelast_last, length_app. simpl. lia.
Qed.

(** The line [..] with a path of one frame goes on to the tokenizer and
    the dispatch loop, as the token [..]. *)
Lemma repl_line_parent_at_root (self : MainLoop.t) (out : Output.t) :
  length (path self) = 1%nat ->
  repl_line self out ".." = dispatch self out (path self) ∅ [".."].
Proof.
  intros Hdepth. unfold repl_line. simpl. rewrite Hdepth. reflexivity.
Qed.

(** One round of the dispatch loop on a token that names a command of the
    current namespace, the output lock being free. *)
Lemma dispatch_command (self : MainLoop.t) (out : Output.t)
  (oldpath : list PathItem) (kwargs : gmap string string)
  (token : string) (args : list string) (here : PathItem) (cmd : Command) :
  Dict.get token (builtin_commands self) = None ->
  cwd self = Ok here ->
  Dict.get token (namespaces (ns here)) = None ->
  Dict.get token (commands (ns here)) = Some cmd ->
  Output.locked out = false ->
  dispatch self out oldpath kwargs (token :: args) =
  let called :=
    Output.write (Output.acquire out) (Output.Invoked (cmd_id cmd) args kwargs) in
  match run cmd args kwargs with
  | None => (set_path self oldpath, Output.release called, NextLine)
  | Some err =>
      if is_Exception err
      then (self,
            Output.write (Output.write called (Output.ErrorLine err)) Output.Traceback,
            NextLine)
      else (self, called, Propagates err)
  end.
Proof.
  intros Hb Hcwd Hns Hcmd Hfree. simpl.
  rewrite Hb, Hcwd, Hns, Hcwd, Hcmd, Hfree. reflexivity.
Qed.

(** One round of the dispatch loop on a token that names a child
    namespace which has no command of that name: the loop descends and
    goes on with the next token. *)
Lemma dispatch_descend (self : MainLoop.t) (out : Output.t)
  (oldpath : list PathItem) (kwargs : gmap string string)
  (token : string) (rest : list string) (here : PathItem) (child : Namespace.t) :
  Dict.get token (builtin_commands self) = None ->
  cwd self = Ok here ->
  Dict.get token (namespaces (ns here)) = Some child ->
  Dict.get token (commands child) = None ->
  dispatch self out oldpath kwargs (token :: rest)
  = dispatch (cd self token child) out oldpath kwargs rest.
Proof.
  intros Hb Hcwd Hns Hcmd. simpl.
  rewrite Hb, Hcwd, Hns, cwd_cd. simpl. rewrite Hcmd. reflexivity.
Qed.

Lemma tokenize_foo_bar_x_y :
  tokenize "foo bar x y=1" = Ok (["foo"; "bar"; "x"], {["y" := "1"]}).
Proof. reflexivity. Qed.

Lemma tokenize_foo_bar :
  tokenize "foo bar" = Ok (["foo"; "bar"], ∅).
Proof. reflexivity. Qed.

(** What the two lines of the example have in common: from the root of
    the tree with [foo] and [bar], the tokens [foo bar args] reach the
    call of [bar] with [args]. *)
Lemma dispatch_foo_bar (ExitCommand SetenvCommand PrintenvCommand bar : Command)
  (ctx : Context.t) (out : Output.t) (kwargs : gmap string string)
  (args : list string) :
  Context.root_ns ctx = Examples.foo_bar_root bar ->
  Output.locked out = false ->
  let self :=
    MainLoop.init (builtins ExitCommand SetenvCommand PrintenvCommand) ctx in
  let inside := cd self "foo" (Node [] [("bar", bar)]) in
  let called :=
    Output.write (Output.acquire out) (Output.Invoked (cmd_id bar) args kwargs) in
  dispatch self out (path self) kwargs ("foo" :: "bar" :: args) =
  match run bar args kwargs with
  | None => (self, Output.release called, NextLine)
  | Some err =>
      if is_Exception err
      then (inside,
            Output.write (Output.write called (Output.ErrorLine err)) Output.Traceback,
            NextLine)
      else (inside, called, Propagates err)
  end.
Proof.
  intros Hroot Hfree self inside called.
  rewrite (dispatch_descend self out (path self) kwargs "foo" ("bar" :: args)
             (mkPathItem (Context.hostname ctx) (Context.root_ns ctx))
             (Node [] [("bar", bar)]));
    [ | reflexivity | reflexivity | simpl; rewrite Hroot; reflexivity | reflexivity ].
  fold inside.
  rewrite (dispatch_command inside out (path self) kwargs "bar" args
             (mkPathItem "foo" (Node [] [("bar", bar)])) bar);
    [ | reflexivity | reflexivity | reflexivity | reflexivity | exact Hfree ].
  reflexivity.
Qed.

(** C2: from the root of the tree with the namespace [foo] and its command
    [bar], with the output lock free and [bar] returning, the line
    [foo bar x y=1] calls [bar] once, with the positional arguments
    [["x"]] and the keyword arguments [{"y": "1"}], under the lock, and
    leaves the loop object as it was: the path is again the root path. *)
Theorem C2_foo_bar_dispatch
  (ExitCommand SetenvCommand PrintenvCommand bar : Command)
  (ctx : Context.t) (out : Output.t) :
  Context.root_ns ctx = Examples.foo_bar_root bar ->
  Output.locked out = false ->
  run bar ["x"] {["y" := "1"]} = None ->
  let self :=
    MainLoop.init (builtins ExitCommand SetenvCommand PrintenvCommand) ctx in
  let r := repl_line self out "foo bar x y=1" in
  r = (self,
       Output.release
         (Output.write (Output.acquire out)
            (Output.Invoked (cmd_id bar) ["x"] {["y" := "1"]})),
       NextLine)
  /\ path r.1.1 = root_path self
  /\ Output.written r.1.2
     = (Output.written out ++ [Output.Invoked (cmd_id bar) ["x"] {["y" := "1"]}])%list
  /\ Output.locked r.1.2 = false.
Proof.
  intros Hroot Hfree Hrun self r.
  assert (Hr : r = (self,
                    Output.release
                      (Output.write (Output.acquire out)
                         (Output.Invoked (cmd_id bar) ["x"] {["y" := "1"]})),
                    NextLine)).
  { unfold r.
    rewrite (repl_line_evaluates self out "foo bar x y=1" "f" "oo bar x y=1")
      by reflexivity.
    rewrite tokenize_foo_bar_x_y.
    unfold self. rewrite (dispatch_foo_bar _ _ _ bar ctx out _ ["x"] Hroot Hfree).
    rewrite Hrun. reflexivity. }
  rewrite Hr. repeat split.
Qed.

Lemma C2_witness :
  let ctx := Context.set_root_ns (Context.init "C")
               (Examples.foo_bar_root (Examples.recorder "bar")) in
  let self := MainLoop.init Examples.builtin_commands ctx in
  let r := repl_line self Output.init "foo bar x y=1" in
  r = (self,
       Output.release
         (Output.write (Output.acquire Output.init)
            (Output.Invoked "bar" ["x"] {["y" := "1"]})),
       NextLine)
  /\ path r.1.1 = root_path self
  /\ Output.written r.1.2 = [Output.Invoked "bar" ["x"] {["y" := "1"]}]
  /\ Output.locked r.1.2 = false.
Proof.
  apply (C2_foo_bar_dispatch
           (Examples.failing "exit" SystemExit) (Examples.recorder "setenv")
           (Examples.recorder "printenv") (Examples.recorder "bar")
           (Context.set_root_ns (Context.init "C")
              (Examples.foo_bar_root (Examples.recorder "bar")))
           Output.init);
    reflexivity.
Defined.

(** C8, where it fails: with the path at the root frame only, the line
    [..] is not dropped; it is tokenized and dispatched as the token
    [..], and in a root that has no namespace and no command of that
    name the message "Command not found!" is written.  The path itself
    stays the root path. *)
Theorem C8_parent_at_root_is_dispatched
  (ExitCommand SetenvCommand PrintenvCommand : Command)
  (ctx : Context.t) (out : Output.t) :
  Dict.get ".." (namespaces (Context.root_ns ctx)) = None ->
  Dict.get ".." (commands (Context.root_ns ctx)) = None ->
  let self :=
    MainLoop.init (builtins ExitCommand SetenvCommand PrintenvCommand) ctx in
  length (path self) = 1%nat
  /\ repl_line self out ".." = dispatch self out (path self) ∅ [".."]
  /\ repl_line self out ".."
     = (self, Output.write out Output.CommandNotFound, NextLine)
  /\ Output.written (repl_line self out "..").1.2 <> Output.written out.
Proof.
  intros Hns Hcmd self.
  assert (Hr : repl_line self out ".."
               = (self, Output.write out Output.CommandNotFound, NextLine)).
  { rewrite repl_line_parent_at_root by reflexivity.
    simpl. rewrite Hns. simpl. rewrite Hcmd. reflexivity. }
  split; [reflexivity|]. split; [by apply repl_line_parent_at_root|].
  split; [exact Hr|].
  rewrite Hr. simpl. intros Heq.
  apply (f_equal (@length Output.item)) in Heq.
  rewrite length_app in Heq. simpl in Heq. lia.
Qed.

Lemma C8_witness :
  let self := MainLoop.init Examples.builtin_commands (Context.init "C") in
  length (path self) = 1%nat
  /\ repl_line self Output.init ".." = dispatch self Output.init (path self) ∅ [".."]
  /\ repl_line self Output.init ".."
     = (self, Output.write Output.init Output.CommandNotFound, NextLine)
  /\ Output.written (repl_line self Output.init "..").1.2
     <> Output.written Output.init.
Proof.
  apply (C8_parent_at_root_is_dispatched
           (Examples.failing "exit" SystemExit) (Examples.recorder "setenv")
           (Examples.recorder "printenv") (Context.init "C") Output.init);
    reflexivity.
Defined.

(** A root namespace that has a child called [..]: at the root the line
    [..] descends into it, so the path grows. *)
Example parent_at_root_can_descend :
  let ctx := Context.set_root_ns (Context.init "C") (Node [("..", Node [] [])] []) in
  let self := MainLoop.init Examples.builtin_commands ctx in
  map name (path (repl_line self Output.init "..").1.1) = [""; ".."].
Proof. reflexivity. Qed.

(** The printing of an event gives the lock back: on a free lock the call
    returns and the lock is free again, with one [acquire] and one
    [release] more. *)
Lemma print_event_releases (out : Output.t) (text : string) :
  Output.locked out = false ->
  let r := Context.print_event out text in
  r.2 = true
  /\ Output.locked r.1 = false
  /\ Output.acquired r.1 = S (Output.acquired out)
  /\ Output.released r.1 = S (Output.released out).
Proof.
  intros Hfree. unfold Context.print_event. simpl. rewrite Hfree. by repeat split.
Qed.

(** C9, where it fails: from the root of the tree with [foo] and [bar],
    with the lock free, when [bar] raises an exception that the handler
    of the loop catches, the line [foo bar] ends with the loop ready for
    the next line and the lock held: one [acquire] more and no [release];
    an event that arrives afterwards waits for the lock. *)
Theorem C9_lock_held_after_command_raises
  (ExitCommand SetenvCommand PrintenvCommand bar : Command)
  (ctx : Context.t) (out : Output.t) (err : exn) (text : string) :
  Context.root_ns ctx = Examples.foo_bar_root bar ->
  Output.locked out = false ->
  run bar [] ∅ = Some err ->
  is_Exception err = true ->
  let self :=
    MainLoop.init (builtins ExitCommand SetenvCommand PrintenvCommand) ctx in
  let r := repl_line self out "foo bar" in
  r.2 = NextLine
  /\ Output.locked r.1.2 = true
  /\ Output.acquired r.1.2 = S (Output.acquired out)
  /\ Output.released r.1.2 = Output.released out
  /\ (Context.print_event r.1.2 text).2 = false.
Proof.
  intros Hroot Hfree Hrun Hexc self r.
  assert (Hr : r = (cd self "foo" (Node [] [("bar", bar)]),
                    Output.write
                      (Output.write
                         (Output.write (Output.acquire out)
                            (Output.Invoked (cmd_id bar) [] ∅))
                         (Output.ErrorLine err))
                      Output.Traceback,
                    NextLine)).
  { unfold r.
    rewrite (repl_line_evaluates self out "foo bar" "f" "oo bar") by reflexivity.
    rewrite tokenize_foo_bar.
    unfold self. rewrite (dispatch_foo_bar _ _ _ bar ctx out _ [] Hroot Hfree).
    rewrite Hrun, Hexc. reflexivity. }
  rewrite Hr. repeat split.
Qed.

Lemma C9_witness :
  let bar := Examples.failing "bar" (RuntimeError "boom") in
  let ctx := Context.set_root_ns (Context.init "C") (Examples.foo_bar_root bar) in
  let self := MainLoop.init Examples.builtin_commands ctx in
  let r := repl_line self Output.init "foo bar" in
  r.2 = NextLine
  /\ Output.locked r.1.2 = true
  /\ Output.acquired r.1.2 = 1%nat
  /\ Output.released r.1.2 = 0%nat
  /\ (Context.print_event r.1.2 "event").2 = false.
Proof.
  apply (C9_lock_held_after_command_raises
           (Examples.failing "exit" SystemExit) (Examples.recorder "setenv")
           (Examples.recorder "printenv")
           (Examples.failing "bar" (RuntimeError "boom"))
           (Context.set_root_ns (Context.init "C")
              (Examples.foo_bar_root (Examples.failing "bar" (RuntimeError "boom"))))
           Output.init (RuntimeError "boom") "event");
    reflexivity.
Defined.

(** With the lock still held, the next command line waits for it. *)
Example next_command_waits :
  let bar := Examples.failing "bar" (RuntimeError "boom") in
  let ctx := Context.set_root_ns (Context.init "C") (Examples.foo_bar_root bar) in
  let self := MainLoop.init Examples.builtin_commands ctx in
  (repl self Output.init ["foo bar"; "bar"]).2 = Blocked.
Proof. reflexivity. Qed.

End MainLoopFacts.

(** * Further properties of the code *)

(** ** The variable store, continued *)

Section VariableStoreMore.

Import VariableStore Words.

(** X1: [set] is read-only: whatever the name and the value, and whether the
    call returns or raises, the store after the call is the store before
    it and every [get] gives what it gave. *)
Theorem set_changes_nothing (self : VariableStore.t) (name name' : string)
  (v : value) :
  (VariableStore.set self name v).1 = self
  /\ get (VariableStore.set self name v).1 name' = get self name'.
Proof.
  split; [apply set_keeps_store|]. by rewrite set_keeps_store.
Qed.

Lemma lookup_of_init (lang name : string) :
  variables (init lang) !! name =
  if String.eqb name "output-format"
  then Some (Variable_init (PyStr "ascii") T_str (Some [PyStr "ascii"; PyStr "json"]))
  else if String.eqb name "datetime-format"
  then Some (Variable_init (PyStr "natural") T_str None)
  else if String.eqb name "language"
  then Some (Variable_init (PyStr lang) T_str None)
  else if String.eqb name "prompt"
  then Some (Variable_init (PyStr "{host}:{path}>") T_str None)
  else if String.eqb name "timeout"
  then Some (Variable_init (PyInt 10) T_int None)
  else if String.eqb name "show-events"
  then Some (Variable_init (PyBool true) T_bool None)
  else None.
Proof.
  unfold init. simpl.
  repeat match goal with
  | |- context [String.eqb name ?k] =>
      destruct (String.eqb_spec name k) as [->|?];
      [ reflexivity | rewrite lookup_insert_ne by congruence ]
  end.
  apply lookup_empty.
Qed.

(** X2: The store has the six declared names and no other: [get] returns on
    them, and on any other name both [get] and [set] raise [KeyError]
    with that name. *)
Theorem store_names (lang name : string) (v : value) :
  (In name declared_names -> exists x, get (init lang) name = Ok x)
  /\ (~ In name declared_names ->
      get (init lang) name = Raise (KeyError name)
      /\ VariableStore.set (init lang) name v = (init lang, Raise (KeyError name))).
Proof.
  split.
  - intros Hin. unfold get, lookup_variable. rewrite lookup_of_init.
    simpl in Hin.
    destruct Hin as [<-|[<-|[<-|[<-|[<-|[<-|[]]]]]]]; simpl; eauto.
  - intros Hout.
    assert (Hnone : variables (init lang) !! name = None).
    { rewrite lookup_of_init.
      repeat match goal with
      | |- context [String.eqb name ?k] =>
          destruct (String.eqb_spec name k) as [->|?];
          [ exfalso; apply Hout; simpl; tauto | ]
      end.
      reflexivity. }
    unfold get, VariableStore.set, lookup_variable. rewrite Hnone. by split.
Qed.

Lemma store_names_witness :
  (exists x, get (init "C") "prompt" = Ok x)
  /\ get (init "C") "colour" = Raise (KeyError "colour")
  /\ VariableStore.set (init "C") "colour" (PyStr "red")
     = (init "C", Raise (KeyError "colour")).
Proof.
  destruct (store_names "C" "prompt" PyNone) as [Hin _].
  destruct (store_names "C" "colour" (PyStr "red")) as [_ Hout].
  split.
  - apply Hin. simpl. tauto.
  - apply Hout. simpl. intros H.
    repeat (destruct H as [H|H]; [discriminate H|]). exact H.
Defined.

(** X3: What [set] accepts in the store the program builds: for
    [output-format] exactly the strings [ascii] and [json]; for [timeout]
    exactly the values [int] converts; for the other four variables every
    value, since only [int] is coerced and only [output-format] has
    choices. *)
Theorem set_accepts (lang : string) (v : value) :
  ((VariableStore.set (init lang) "output-format" v).2 = Ok tt
     <-> v = PyStr "ascii" \/ v = PyStr "json")
  /\ ((VariableStore.set (init lang) "timeout" v).2 = Ok tt
     <-> is_ok (int v) = true)
  /\ (forall name,
        In name ["datetime-format"; "language"; "prompt"; "show-events"] ->
        (VariableStore.set (init lang) name v).2 = Ok tt).
Proof.
  split; [|split].
  - unfold VariableStore.set, lookup_variable. rewrite lookup_of_init. simpl.
    unfold Variable_set. simpl.
    destruct v as [| b | n | s]; simpl;
      try (split; [discriminate | intros [H|H]; discriminate H]).
    destruct (String.eqb_spec s "ascii") as [->|Ha]; simpl.
    { split; [by left | reflexivity]. }
    destruct (String.eqb_spec s "json") as [->|Hj]; simpl.
    { split; [by right | reflexivity]. }
    split; [discriminate | intros [H|H]; congruence].
  - unfold VariableStore.set, lookup_variable. rewrite lookup_of_init. simpl.
    unfold Variable_set. simpl.
    destruct (int v); simpl; split; congruence.
  - intros name Hin. unfold VariableStore.set, lookup_variable.
    rewrite lookup_of_init. simpl in Hin.
    destruct Hin as [<-|[<-|[<-|[<-|[]]]]]; reflexivity.
Qed.

Lemma set_accepts_witness :
  ((VariableStore.set (init "C") "output-format" (PyStr "json")).2 = Ok tt
     <-> PyStr "json" = PyStr "ascii" \/ PyStr "json" = PyStr "json")
  /\ ((VariableStore.set (init "C") "timeout" (PyStr " 30 ")).2 = Ok tt
     <-> is_ok (int (PyStr " 30 ")) = true)
  /\ (VariableStore.set (init "C") "show-events" (PyStr "perhaps")).2 = Ok tt.
Proof.
  destruct (set_accepts "C" (PyStr "json")) as (H1 & _ & _).
  destruct (set_accepts "C" (PyStr " 30 ")) as (_ & H2 & _).
  destruct (set_accepts "C" (PyStr "perhaps")) as (_ & _ & H3).
  split; [exact H1|]. split; [exact H2|].
  apply H3. simpl. tauto.
Defined.

(** X4: [get_all] and [get] agree: a pair is yielded exactly when [get] of
    its name returns its value, and no name is yielded twice. *)
Theorem get_all_agrees_with_get (self : VariableStore.t) (name : string)
  (v : value) :
  ((name, v) ∈ get_all self <-> get self name = Ok v)
  /\ NoDup (get_all self).*1.
Proof.
  split.
  - unfold get_all, get, lookup_variable. rewrite list_elem_of_fmap. split.
    + intros [[k var] [Heq Hin]]. simpl in Heq. injection Heq as -> ->.
      apply elem_of_map_to_list in Hin. rewrite Hin. reflexivity.
    + destruct (variables self !! name) as [var|] eqn:Hvar; simpl; [|discriminate].
      intros [= <-]. exists (name, var). split; [reflexivity|].
      by apply elem_of_map_to_list.
  - unfold get_all. rewrite <- list_fmap_compose.
    apply (NoDup_fst_map_to_list (variables self)).
Qed.

End VariableStoreMore.

(** ** Strings *)

Section StringFacts.

Import Words.

Lemma string_app_cons (x : ascii) (a b : string) :
  String x a ++ b = String x (a ++ b).
Proof. reflexivity. Qed.

Lemma string_app_nil_l (b : string) : EmptyString ++ b = b.
Proof. reflexivity. Qed.

Lemma string_app_assoc (a b c : string) : (a ++ b) ++ c = a ++ b ++ c.
Proof.
  induction a as [|x a IH]; [reflexivity|].
  by rewrite !string_app_cons, IH.
Qed.

Lemma string_app_nil_r (a : string) : a ++ EmptyString = a.
Proof.
  induction a as [|x a IH]; [reflexivity|]. by rewrite string_app_cons, IH.
Qed.

Lemma snoc_is_cons (s : string) (c : ascii) :
  exists d t, s ++ String c EmptyString = String d t.
Proof. destruct s as [|d s]; [by exists c, EmptyString | by eexists _, _]. Qed.

Lemma last_snoc (s : string) (c : ascii) :
  Py.last (s ++ String c EmptyString) = Ok c.
Proof.
  induction s as [|d s IH]; [reflexivity|].
  rewrite string_app_cons.
  destruct (snoc_is_cons s c) as (x & t & Hs). rewrite Hs in IH |- *.
  exact IH.
Qed.

Lemma drop_last_snoc (s : string) (c : ascii) :
  drop_last (s ++ String c EmptyString) = s.
Proof.
  induction s as [|d s IH]; [reflexivity|].
  rewrite string_app_cons.
  destruct (snoc_is_cons s c) as (x & t & Hs). rewrite Hs in IH |- *.
  simpl in *. by rewrite IH.
Qed.

Lemma all_chars_app (p : ascii -> bool) (a b : string) :
  all_chars p (a ++ b) = all_chars p a && all_chars p b.
Proof.
  induction a as [|x a IH]; [reflexivity|].
  rewrite string_app_cons. simpl. rewrite IH. by rewrite andb_assoc.
Qed.

Lemma all_chars_impl (p q : ascii -> bool) (s : string) :
  (forall c, p c = true -> q c = true) ->
  all_chars p s = true -> all_chars q s = true.
Proof.
  intros Hpq. induction s as [|c s IH]; simpl; [done|].
  intros [Hc Hs]%andb_true_iff. rewrite (Hpq c Hc). by apply IH.
Qed.

Lemma contains_without (c : ascii) (s : string) :
  without c s = true -> contains c s = false.
Proof.
  induction s as [|d s IH]; simpl; [done|].
  intros [Hd Hs]%andb_true_iff. rewrite IH by exact Hs.
  rewrite Ascii.eqb_sym. by destruct (Ascii.eqb d c).
Qed.

Lemma contains_app_sep (c : ascii) (k v : string) :
  contains c (k ++ String c v) = true.
Proof.
  induction k as [|d k IH].
  - rewrite string_app_nil_l. simpl. by rewrite Ascii.eqb_refl.
  - rewrite string_app_cons. simpl. rewrite IH. apply orb_true_r.
Qed.

Lemma partition_app_sep (c : ascii) (k v : string) :
  without c k = true ->
  partition c (k ++ String c v) = (k, String c EmptyString, v).
Proof.
  induction k as [|d k IH].
  - intros _. rewrite string_app_nil_l. simpl. by rewrite Ascii.eqb_refl.
  - rewrite string_app_cons. simpl. intros [Hd Hk]%andb_true_iff.
    rewrite (IH Hk).
    rewrite Ascii.eqb_sym. destruct (Ascii.eqb d c); [discriminate|reflexivity].
Qed.

(** The white space of the lexer is white space for [strip]. *)
Lemma whitespace_isspace (c : ascii) :
  Shlex.whitespace c = true -> isspace c = true.
Proof.
  unfold Shlex.whitespace, isspace.
  destruct (Nat.eqb_spec (nat_of_ascii c) 32) as [->|_]; [reflexivity|].
  destruct (Nat.eqb_spec (nat_of_ascii c) 9) as [->|_]; [reflexivity|].
  destruct (Nat.eqb_spec (nat_of_ascii c) 13) as [->|_]; [reflexivity|].
  destruct (Nat.eqb_spec (nat_of_ascii c) 10) as [->|_]; [reflexivity|].
  discriminate.
Qed.

Lemma no_space_no_whitespace (s : string) :
  no_space s = true ->
  all_chars (fun c => negb (Shlex.whitespace c)) s = true.
Proof.
  apply all_chars_impl. intros c Hc.
  destruct (Shlex.whitespace c) eqn:Hw; [|reflexivity].
  apply whitespace_isspace in Hw. by rewrite Hw in Hc.
Qed.

(** A quote character is neither white space nor a word character. *)
Lemma quote_class (q : ascii) :
  Shlex.quotes q = true ->
  Shlex.whitespace q = false /\ Shlex.wordchars q = false.
Proof.
  unfold Shlex.quotes.
  destruct (Ascii.eqb_spec q squote) as [->|_]; [by split|].
  destruct (Ascii.eqb_spec q dquote) as [->|_]; [by split|].
  discriminate.
Qed.

Lemma not_quote_not_dquote (c : ascii) :
  Shlex.quotes c = false -> Ascii.eqb c dquote = false.
Proof.
  unfold Shlex.quotes. intros H. by apply orb_false_iff in H as [_ H].
Qed.

(** [strip] leaves a text without white space as it is. *)
Lemma strip_no_space (s : string) : no_space s = true -> strip s = s.
Proof.
  intros Hs. unfold strip.
  assert (Hl : lstrip s = s).
  { destruct s as [|c s]; [reflexivity|]. simpl in *.
    apply andb_true_iff in Hs as [Hc _].
    by destruct (isspace c). }
  rewrite Hl. clear Hl.
  induction s as [|c s IH]; [reflexivity|]. simpl in *.
  apply andb_true_iff in Hs as [Hc Hs]. rewrite (IH Hs).
  destruct s; [by destruct (isspace c) | reflexivity].
Qed.

End StringFacts.

(** ** The tokenizer, continued *)

Section TokenizerMore.

Import MainLoop TokenRules Words.

Lemma snoc_app (tok : string) (c : ascii) (s : string) :
  Shlex.snoc tok c ++ s = tok ++ String c s.
Proof. unfold Shlex.snoc. by rewrite string_app_assoc. Qed.

(** Inside a quotation the lexer reads up to the closing quote. *)
Lemma read_tokens_in_quote (s : string) :
  forall (q : ascii) (tok rest : string),
    without q s = true ->
    Shlex.read_tokens (Shlex.InQuote q) tok (s ++ String q rest)
    = (try! ts := Shlex.read_tokens Shlex.Between EmptyString rest in
       Ok ((tok ++ s ++ String q EmptyString) :: ts)).
Proof.
  induction s as [|c s IH]; intros q tok rest Hs.
  - rewrite !string_app_nil_l. simpl. by rewrite Ascii.eqb_refl.
  - simpl in Hs. apply andb_true_iff in Hs as [Hc Hs].
    rewrite !string_app_cons. simpl.
    destruct (Ascii.eqb c q); [discriminate|].
    rewrite (IH q _ rest Hs). by rewrite snoc_app.
Qed.

(** Inside a quotation that is not closed the lexer raises. *)
Lemma read_tokens_unterminated (s : string) :
  forall (q : ascii) (tok : string),
    without q s = true ->
    Shlex.read_tokens (Shlex.InQuote q) tok s
    = Raise (ValueError Shlex.no_closing_quotation).
Proof.
  induction s as [|c s IH]; intros q tok Hs; [reflexivity|].
  simpl in *. apply andb_true_iff in Hs as [Hc Hs].
  destruct (Ascii.eqb c q); [discriminate|]. by apply IH.
Qed.

(** Inside a word the lexer reads up to the next white space. *)
Lemma read_tokens_in_word (s : string) :
  forall tok : string,
    all_chars (fun c => negb (Shlex.whitespace c)) s = true ->
    Shlex.read_tokens Shlex.InWord tok s = Ok [tok ++ s].
Proof.
  induction s as [|c s IH]; intros tok Hs.
  - simpl. by rewrite string_app_nil_r.
  - simpl in *. apply andb_true_iff in Hs as [Hc Hs].
    destruct (Shlex.whitespace c); [discriminate|].
    rewrite (IH _ Hs). by rewrite snoc_app.
Qed.

(** A text without white space that does not start with a quote is one
    token. *)
Lemma split_one_token (c : ascii) (w : string) :
  all_chars (fun c => negb (Shlex.whitespace c)) (String c w) = true ->
  Shlex.quotes c = false ->
  Shlex.split (String c w) = Ok [String c w].
Proof.
  simpl. intros [Hc Hw]%andb_true_iff Hq. unfold Shlex.split. simpl.
  destruct (Shlex.whitespace c); [discriminate|]. rewrite Hq.
  destruct (Shlex.wordchars c); by rewrite (read_tokens_in_word w _ Hw).
Qed.

(** Without quote characters the lexer stays out of the quotation state
    and returns. *)
Lemma read_tokens_no_quote (line : string) :
  forall (st : Shlex.lexstate) (tok : string),
    (forall q, st <> Shlex.InQuote q) ->
    no_quote line = true ->
    exists ts, Shlex.read_tokens st tok line = Ok ts.
Proof.
  induction line as [|c line IH]; intros st tok Hst Hline.
  - destruct st as [| |q]; simpl; eauto. by destruct (Hst q).
  - unfold no_quote in Hline. simpl in Hline.
    apply andb_true_iff in Hline as [Hc Hline].
    apply negb_true_iff in Hc.
    assert (HB : exists ts, Shlex.read_tokens Shlex.Between EmptyString line = Ok ts)
      by (apply IH; [discriminate | exact Hline]).
    destruct st as [| |q]; simpl.
    + destruct (Shlex.whitespace c); [exact HB|]. rewrite Hc.
      destruct (Shlex.wordchars c); apply IH; (discriminate || exact Hline).
    + destruct (Shlex.whitespace c).
      * destruct HB as [ts ->]. simpl. eauto.
      * apply IH; [discriminate | exact Hline].
    + by destruct (Hst q).
Qed.

(** Every token is made of characters of the line. *)
Lemma read_tokens_all_chars (p : ascii -> bool) (line : string) :
  forall (st : Shlex.lexstate) (tok : string) (ts : list string),
    all_chars p tok = true ->
    all_chars p line = true ->
    Shlex.read_tokens st tok line = Ok ts ->
    Forall (fun t => all_chars p t = true) ts.
Proof.
  induction line as [|c line IH]; intros st tok ts Htok Hline Hrun.
  - destruct st; simpl in Hrun; inversion Hrun; subst; repeat constructor; done.
  - simpl in Hline. apply andb_true_iff in Hline as [Hc Hline].
    assert (Hone : all_chars p (String c EmptyString) = true)
      by (simpl; by rewrite Hc).
    assert (Hsnoc : all_chars p (Shlex.snoc tok c) = true).
    { unfold Shlex.snoc. rewrite all_chars_app, Htok. exact Hone. }
    assert (HB : forall ts', Shlex.read_tokens Shlex.Between EmptyString line = Ok ts' ->
                             Forall (fun t => all_chars p t = true) ts')
      by (intros ts'; by apply IH).
    destruct st as [| |q]; simpl in Hrun.
    + destruct (Shlex.whitespace c); [by apply HB|].
      destruct (Shlex.wordchars c);
        [eapply IH; [| |exact Hrun]; assumption|].
      destruct (Shlex.quotes c); (eapply IH; [| |exact Hrun]; assumption).
    + destruct (Shlex.whitespace c);
        [|eapply IH; [| |exact Hrun]; assumption].
      destruct (Shlex.read_tokens Shlex.Between EmptyString line) as [ts'|] eqn:Hrest;
        [|discriminate].
      simpl in Hrun. inversion Hrun; subst. constructor; [exact Htok | by apply HB].
    + destruct (Ascii.eqb c q);
        [|eapply IH; [| |exact Hrun]; assumption].
      destruct (Shlex.read_tokens Shlex.Between EmptyString line) as [ts'|] eqn:Hrest;
        [|discriminate].
      simpl in Hrun. inversion Hrun; subst. constructor; [exact Hsnoc | by apply HB].
Qed.

(** A keyword argument with an empty value makes the round raise. *)
Lemma tokenize_token_empty_value (t : string) (args : list string)
  (kwargs : gmap string string) :
  t <> EmptyString ->
  empty_value t = true ->
  tokenize_token t args kwargs = Raise IndexError.
Proof.
  intros Hne Hval. unfold tokenize_token.
  pose proof (quoted_test t Hne) as Hq. unfold Py.bind in Hq |- *.
  destruct (Py.first t) as [c0|]; [|discriminate].
  destruct (if Ascii.eqb c0 dquote
            then match Py.last t with
                 | Ok a => Ok (Ascii.eqb a dquote)
                 | Raise e => Raise e
                 end
            else Ok false) as [b|]; [|discriminate].
  injection Hq as ->. unfold empty_value in Hval.
  destruct (fully_quoted t); [discriminate|].
  destruct (contains "=" t); [|discriminate].
  destruct (partition "=" t) as [[key eq] value]. simpl in Hval.
  destruct value; [reflexivity | discriminate].
Qed.

Lemma tokenize_loop_outcome (tokens : list string) :
  forall (args : list string) (kwargs : gmap string string),
    Forall (fun t => t <> EmptyString) tokens ->
    tokenize_loop tokens args kwargs =
    if existsb empty_value tokens then Raise IndexError
    else Ok (tokens_rule tokens args kwargs).
Proof.
  induction tokens as [|t rest IH]; intros args kwargs Hne; [reflexivity|].
  inversion Hne; subst. simpl.
  destruct (empty_value t) eqn:Hval; simpl.
  - by rewrite tokenize_token_empty_value.
  - rewrite tokenize_token_rule by assumption. simpl. by apply IH.
Qed.

Lemma tokenize_unfold (line : string) :
  tokenize line =
  match Shlex.split line with
  | Raise e => Raise e
  | Ok tokens =>
      if existsb empty_value tokens then Raise IndexError
      else Ok (tokens_rule tokens [] ∅)
  end.
Proof.
  unfold tokenize. destruct (Shlex.split line) as [tokens|e] eqn:Hsplit; [|reflexivity].
  simpl. apply tokenize_loop_outcome. by eapply split_nonempty.
Qed.

(** X5: The outcome of [tokenize] on every line: the [ValueError] of the lexer
    when a quotation is not closed; [IndexError] when some token is a
    keyword argument with an empty value; otherwise the positional and
    keyword arguments the three rules give. *)
Theorem tokenize_outcome (line : string) :
  tokenize line =
  match Shlex.split line with
  | Raise e => Raise e
  | Ok tokens =>
      if existsb empty_value tokens then Raise IndexError
      else Ok (tokens_rule tokens [] ∅)
  end.
Proof.
  unfold tokenize. destruct (Shlex.split line) as [tokens|e] eqn:Hsplit.
  - simpl. apply tokenize_loop_outcome. by eapply split_nonempty.
  - reflexivity.
Qed.

(** X6: A quoted text comes back as one positional argument without its
    quotes, white space and [=] included, as long as it has no double
    quote inside. *)
Theorem tokenize_quoted_round_trip (s : string) :
  without dquote s = true ->
  tokenize (String dquote (s ++ String dquote EmptyString)) = Ok ([s], ∅).
Proof.
  intros Hs.
  assert (Hsplit : Shlex.split (String dquote (s ++ String dquote EmptyString))
                   = Ok [String dquote (s ++ String dquote EmptyString)]).
  { unfold Shlex.split. simpl. by rewrite (read_tokens_in_quote s dquote _ EmptyString Hs). }
  assert (Hq : fully_quoted (String dquote (s ++ String dquote EmptyString)) = true).
  { unfold fully_quoted.
    change (String dquote (s ++ String dquote EmptyString))
      with (String dquote s ++ String dquote EmptyString).
    rewrite last_snoc. reflexivity. }
  rewrite tokenize_unfold, Hsplit. simpl. unfold empty_value, token_rule.
  rewrite Hq. simpl. unfold inner. simpl. by rewrite drop_last_snoc.
Qed.

Lemma tokenize_quoted_round_trip_witness :
  tokenize (String dquote ("d e=f" ++ String dquote EmptyString))
  = Ok (["d e=f"], ∅).
Proof. apply (tokenize_quoted_round_trip "d e=f"). reflexivity. Defined.

(** X9: An unclosed quotation at the start of the line makes [tokenize] raise
    the [ValueError] of the lexer; a line without any quote character
    never does. *)
Theorem tokenize_quotation_errors (q : ascii) (s : string) :
  (Shlex.quotes q = true -> without q s = true ->
   tokenize (String q s) = Raise (ValueError Shlex.no_closing_quotation))
  /\ (no_quote s = true -> exists ts, Shlex.split s = Ok ts).
Proof.
  split.
  - intros Hq Hs. unfold tokenize, Shlex.split. simpl.
    destruct (quote_class q Hq) as [-> ->]. rewrite Hq.
    by rewrite read_tokens_unterminated.
  - intros Hs. apply read_tokens_no_quote; [discriminate | exact Hs].
Qed.

Lemma tokenize_quotation_errors_witness :
  tokenize (String dquote "abc def")
    = Raise (ValueError Shlex.no_closing_quotation)
  /\ exists ts, Shlex.split "abc def" = Ok ts.
Proof.
  destruct (tokenize_quotation_errors dquote "abc def") as [H1 H2].
  split; [apply H1; reflexivity | apply H2; reflexivity].
Defined.

Lemma not_quoted_by_first (c : ascii) (w : string) :
  Ascii.eqb c dquote = false -> fully_quoted (String c w) = false.
Proof.
  intros Hc. unfold fully_quoted, Py.first.
  destruct (Py.last (String c w)); [by rewrite Hc | reflexivity].
Qed.

(** X7: [key=value] typed as one word comes back as the one keyword argument
    [key] with [value], unquoted when it is quoted: the key has no white
    space, no quote and no [=], the value has no white space and is not
    empty. *)
Theorem tokenize_keyword_round_trip (k v : string) :
  no_space k = true ->
  no_quote k = true ->
  without "=" k = true ->
  no_space v = true ->
  v <> EmptyString ->
  tokenize (k ++ String "=" v) = Ok ([], {[k := unquote v]}).
Proof.
  intros Hks Hkq Hke Hvs Hv.
  assert (Hw : exists c w, k ++ String "=" v = String c w
                           /\ Shlex.quotes c = false).
  { destruct k as [|c k'].
    - exists "="%char, v. by split.
    - exists c, (k' ++ String "=" v). split; [reflexivity|].
      unfold no_quote in Hkq. simpl in Hkq.
      apply andb_true_iff in Hkq as [Hc _]. by apply negb_true_iff in Hc. }
  destruct Hw as (c & w & Hcw & Hc).
  assert (Hns : all_chars (fun c => negb (Shlex.whitespace c)) (k ++ String "=" v) = true).
  { rewrite all_chars_app. simpl.
    rewrite (no_space_no_whitespace k Hks), (no_space_no_whitespace v Hvs).
    reflexivity. }
  assert (Hsplit : Shlex.split (k ++ String "=" v) = Ok [k ++ String "=" v]).
  { rewrite Hcw in Hns |- *. by apply split_one_token. }
  assert (Hq : fully_quoted (k ++ String "=" v) = false).
  { rewrite Hcw. apply not_quoted_by_first. by apply not_quote_not_dquote. }
  rewrite tokenize_unfold, Hsplit. simpl.
  unfold empty_value, token_rule.
  rewrite Hq, contains_app_sep, (partition_app_sep "=" k v Hke). simpl.
  destruct v as [|v0 v']; [congruence|]. reflexivity.
Qed.

Lemma tokenize_keyword_round_trip_witness :
  tokenize ("name" ++ String "=" "tank/data=1") = Ok ([], {["name" := "tank/data=1"]})
  /\ tokenize ("name" ++ String "=" (String dquote ("x" ++ String dquote EmptyString)))
     = Ok ([], {["name" := "x"]}).
Proof.
  split.
  - apply (tokenize_keyword_round_trip "name" "tank/data=1");
      [reflexivity | reflexivity | reflexivity | reflexivity | discriminate].
  - apply (tokenize_keyword_round_trip "name"
             (String dquote ("x" ++ String dquote EmptyString)));
      [reflexivity | reflexivity | reflexivity | reflexivity | discriminate].
Defined.

Lemma tokens_rule_plain (tokens : list string) :
  forall (args : list string) (kwargs : gmap string string),
    Forall (fun t => t <> EmptyString) tokens ->
    Forall (fun t => all_chars (fun c => negb (Shlex.quotes c)
                                         && negb (Ascii.eqb c "=")) t = true) tokens ->
    existsb empty_value tokens = false
    /\ tokens_rule tokens args kwargs = ((args ++ tokens)%list, kwargs).
Proof.
  induction tokens as [|t rest IH]; intros args kwargs Hne Hp.
  - simpl. by rewrite app_nil_r.
  - inversion Hne as [|? ? Ht Hne']; subst. inversion Hp as [|? ? Hpt Hp']; subst.
    destruct t as [|c w]; [congruence|].
    simpl in Hpt. apply andb_true_iff in Hpt as [Hc Hw].
    apply andb_true_iff in Hc as [Hcq Hce].
    apply negb_true_iff in Hcq. apply negb_true_iff in Hce.
    assert (Hq : fully_quoted (String c w) = false)
      by (apply not_quoted_by_first; by apply not_quote_not_dquote).
    assert (Heq : contains "=" (String c w) = false).
    { apply contains_without. unfold without. simpl. rewrite Hce. simpl.
      revert Hw. apply all_chars_impl. intros d Hd.
      by apply andb_true_iff in Hd as [_ Hd]. }
    destruct (IH (args ++ [String c w])%list kwargs Hne' Hp') as [Hex Hrule].
    split.
    + simpl. unfold empty_value at 1. rewrite Hq, Heq. simpl. exact Hex.
    + simpl. unfold token_rule. rewrite Hq, Heq. simpl.
      rewrite Hrule. by rewrite <- app_assoc.
Qed.

(** X8: A line without quotes and without [=] is split at white space and
    every word is a positional argument as typed; no keyword argument
    comes out of it and nothing is raised. *)
Theorem tokenize_plain_words (line : string) :
  no_quote line = true ->
  without "=" line = true ->
  exists ts, Shlex.split line = Ok ts /\ tokenize line = Ok (ts, ∅).
Proof.
  intros Hq He.
  destruct (read_tokens_no_quote line Shlex.Between EmptyString) as [ts Hts];
    [discriminate | exact Hq |].
  exists ts. split; [exact Hts|].
  assert (Hp : Forall (fun t => all_chars (fun c => negb (Shlex.quotes c)
                                             && negb (Ascii.eqb c "=")) t = true) ts).
  { eapply (read_tokens_all_chars _ line Shlex.Between EmptyString); [reflexivity| |exact Hts].
    clear Hts. unfold no_quote, without in *.
    induction line as [|c line IH]; [reflexivity|]. simpl in *.
    apply andb_true_iff in Hq as [Hq1 Hq2]. apply andb_true_iff in He as [He1 He2].
    rewrite Hq1, He1. simpl. by apply IH. }
  destruct (tokens_rule_plain ts [] ∅ (split_nonempty line ts Hts) Hp) as [Hex Hrule].
  rewrite tokenize_unfold. unfold Shlex.split in *. rewrite Hts, Hex, Hrule.
  reflexivity.
Qed.

Lemma tokenize_plain_words_witness :
  exists ts, Shlex.split "volume  create tank" = Ok ts
             /\ tokenize "volume  create tank" = Ok (ts, ∅).
Proof. apply tokenize_plain_words; reflexivity. Defined.

End TokenizerMore.

(** ** The read-eval loop, continued *)

Section MainLoopMore.

Import Namespace MainLoop Shape Words.

Lemma list_last_cons_eq {A : Type} (a b : A) (l : list A) :
  list_last (a :: b :: l) = list_last (b :: l).
Proof. reflexivity. Qed.

(** Pushing the child found in the current namespace keeps the chain. *)
Lemma chain_snoc (rest : list PathItem) :
  forall (root here : PathItem) (n : string) (child : Namespace.t),
    chain (ns root) rest ->
    list_last (root :: rest) = Ok here ->
    Dict.get n (namespaces (ns here)) = Some child ->
    chain (ns root) (rest ++ [mkPathItem n child]).
Proof.
  induction rest as [|f rest IH]; intros root here n child Hch Hlast Hget.
  - injection Hlast as <-. simpl. by split.
  - destruct Hch as [Hf Hch]. rewrite list_last_cons_eq in Hlast.
    simpl. split; [exact Hf|]. by eapply IH.
Qed.

Lemma chain_removelast (rest : list PathItem) :
  forall prev : Namespace.t, chain prev rest -> chain prev (removelast rest).
Proof.
  induction rest as [|f rest IH]; intros prev Hch; [exact Hch|].
  destruct Hch as [Hf Hch]. destruct rest as [|g rest]; [exact I|].
  split; [exact Hf | by apply IH].
Qed.

Lemma rooted_cwd (root : PathItem) (p : list PathItem) :
  rooted root p -> exists here, list_last p = Ok here.
Proof. intros (rest & -> & _). apply list_last_cons. Qed.

(** The dispatch loop keeps the root frame and a rooted path. *)
Lemma dispatch_well_rooted (root : PathItem) (kwargs : gmap string string)
  (oldpath : list PathItem) (tokens : list string) :
  forall (self : MainLoop.t) (out : Output.t),
    rooted root oldpath ->
    well_rooted root self ->
    well_rooted root (dispatch self out oldpath kwargs tokens).1.1.
Proof.
  induction tokens as [|token tokens IH]; intros self out Hold Hself; [exact Hself|].
  simpl.
  destruct (Dict.get token (builtin_commands self)) as [b|].
  { destruct (run b tokens kwargs); exact Hself. }
  destruct Hself as [Hroot Hpath].
  destruct (rooted_cwd root _ Hpath) as [here Hhere].
  unfold cwd at 1. rewrite Hhere.
  assert (Hstep : forall self1 : MainLoop.t,
            well_rooted root self1 ->
            forall nsfound : bool,
              (nsfound = true ->
               well_rooted root (dispatch self1 out oldpath kwargs tokens).1.1) ->
              well_rooted root
                (match cwd self1 with
                 | Raise err =>
                     (self1,
                      Output.write (Output.write out (Output.ErrorLine err))
                        Output.Traceback, NextLine)
                 | Ok here1 =>
                     match Dict.get token (commands (ns here1)) with
                     | Some cmd =>
                         if Output.locked out then (self1, out, Blocked)
                         else
                           match run cmd tokens kwargs with
                           | Some err =>
                               if is_Exception err
                               then (self1,
                                     Output.write
                                       (Output.write
                                          (Output.write (Output.acquire out)
                                             (Output.Invoked (cmd_id cmd) tokens kwargs))
                                          (Output.ErrorLine err)) Output.Traceback,
                                     NextLine)
                               else (self1,
                                     Output.write (Output.acquire out)
                                       (Output.Invoked (cmd_id cmd) tokens kwargs),
                                     Propagates err)
                           | None =>
                               (set_path self1 oldpath,
                                Output.release
                                  (Output.write (Output.acquire out)
                                     (Output.Invoked (cmd_id cmd) tokens kwargs)),
                                NextLine)
                           end
                     | None =>
                         if nsfound then dispatch self1 out oldpath kwargs tokens
                         else (self1, Output.write out Output.CommandNotFound, NextLine)
                     end
                 end).1.1).
  { intros self1 Hself1 nsfound Hrec.
    destruct (cwd self1) as [here1|err]; [|exact Hself1].
    destruct (Dict.get token (commands (ns here1))) as [cmd|].
    - destruct (Output.locked out); [exact Hself1|].
      destruct (run cmd tokens kwargs) as [err|].
      + destruct (is_Exception err); exact Hself1.
      + destruct Hself1 as [Hr _]. split; [exact Hr | exact Hold].
    - destruct nsfound; [by apply Hrec | exact Hself1]. }
  destruct (Dict.get token (namespaces (ns here))) as [child|] eqn:Hchild.
  - assert (Hcd : well_rooted root (cd self token child)).
    { split; [exact Hroot|]. destruct Hpath as (rest & Hp & Hch).
      exists (rest ++ [mkPathItem token child])%list. simpl. rewrite Hp.
      split; [reflexivity|]. rewrite Hp in Hhere. by eapply chain_snoc. }
    exact (Hstep (cd self token child) Hcd true
             (fun _ => IH (cd self token child) out Hold Hcd)).
  - assert (Hself : well_rooted root self) by (by split).
    refine (Hstep self Hself false _). discriminate.
Qed.

Lemma repl_line_well_rooted (root : PathItem) (self : MainLoop.t)
  (out : Output.t) (raw : string) :
  well_rooted root self -> well_rooted root (repl_line self out raw).1.1.
Proof.
  intros Hself. unfold repl_line.
  destruct (strip raw) as [|c0 tail]; [exact Hself|].
  assert (Hreset : well_rooted root (set_path self (root_path self))).
  { destruct Hself as [Hroot _]. split; [exact Hroot|]. simpl. rewrite Hroot.
    by exists []. }
  set (start := if Ascii.eqb c0 "/" then (set_path self (root_path self), tail)
                else (self, String c0 tail)).
  assert (Hstart : well_rooted root start.1)
    by (unfold start; destruct (Ascii.eqb c0 "/"); assumption).
  destruct start as [self1 line1]. simpl in Hstart.
  assert (Heval : well_rooted root
            (match tokenize line1 with
             | Raise e => (self1, out, Propagates e)
             | Ok (tokens, kwargs) => dispatch self1 out (path self1) kwargs tokens
             end).1.1).
  { destruct (tokenize line1) as [[tokens kwargs]|e]; [|exact Hstart].
    apply dispatch_well_rooted; [by destruct Hstart | exact Hstart]. }
  destruct (String.eqb line1 ".."); [|exact Heval].
  destruct (1 <? length (path self1))%nat eqn:Hlen; [|exact Heval].
  destruct Hstart as [Hroot (rest & Hp & Hch)]. split; [exact Hroot|]. simpl.
  rewrite Hp in Hlen |- *. destruct rest as [|f rest]; [discriminate Hlen|].
  exists (removelast (f :: rest)). split; [reflexivity|].
  by apply chain_removelast.
Qed.

Lemma repl_well_rooted (root : PathItem) (input : list string) :
  forall (self : MainLoop.t) (out : Output.t),
    well_rooted root self -> well_rooted root (repl self out input).1.1.
Proof.
  induction input as [|raw rest IH]; intros self out Hself; [exact Hself|].
  simpl. pose proof (repl_line_well_rooted root self out raw Hself) as Hline.
  destruct (repl_line self out raw) as [[self' out'] [| e |]]; simpl in Hline;
    [by apply IH | exact Hline | exact Hline].
Qed.

Lemma init_well_rooted (builtin : list (string * Command)) (ctx : Context.t) :
  well_rooted (mkPathItem (Context.hostname ctx) (Context.root_ns ctx))
    (MainLoop.init builtin ctx).
Proof. split; [reflexivity|]. by exists []. Qed.

(** X10: The path of the loop always starts with the root frame and goes down
    the namespace tree: after any sequence of input lines the path is the
    root frame followed by frames each of which holds the child, under
    its name, of the namespace before it.  In particular the root frame is
    never popped and [cwd] never fails. *)
Theorem repl_path_is_rooted (builtin : list (string * Command))
  (ctx : Context.t) (out : Output.t) (input : list string) :
  let root := mkPathItem (Context.hostname ctx) (Context.root_ns ctx) in
  let final := (repl (MainLoop.init builtin ctx) out input).1.1 in
  well_rooted root final /\ exists here, cwd final = Ok here.
Proof.
  intros root final.
  assert (Hfinal : well_rooted root final)
    by apply repl_well_rooted, init_well_rooted.
  split; [exact Hfinal|]. destruct Hfinal as [_ Hp]. by eapply rooted_cwd.
Qed.

(** Every run of the dispatch loop has one of the footprints. *)
Lemma dispatch_footprint (kwargs : gmap string string)
  (oldpath : list PathItem) (tokens : list string) :
  forall (self : MainLoop.t) (out : Output.t),
    footprint kwargs out (dispatch self out oldpath kwargs tokens).1.2
      (dispatch self out oldpath kwargs tokens).2.
Proof.
  induction tokens as [|token tokens IH]; intros self out; [constructor|].
  simpl.
  destruct (Dict.get token (builtin_commands self)) as [b|].
  { pose proof (fp_builtin kwargs out b tokens) as Hb.
    by destruct (run b tokens kwargs). }
  destruct (cwd self) as [here|err]; [|apply fp_lookup_failed].
  assert (Hstep : forall (self1 : MainLoop.t) (nsfound : bool),
    let r :=
      match cwd self1 with
      | Raise err =>
          (self1,
           Output.write (Output.write out (Output.ErrorLine err)) Output.Traceback,
           NextLine)
      | Ok here1 =>
          match Dict.get token (commands (ns here1)) with
          | Some cmd =>
              if Output.locked out then (self1, out, Blocked)
              else
                match run cmd tokens kwargs with
                | Some err =>
                    if is_Exception err
                    then (self1,
                          Output.write
                            (Output.write
                               (Output.write (Output.acquire out)
                                  (Output.Invoked (cmd_id cmd) tokens kwargs))
                               (Output.ErrorLine err)) Output.Traceback,
                          NextLine)
                    else (self1,
                          Output.write (Output.acquire out)
                            (Output.Invoked (cmd_id cmd) tokens kwargs),
                          Propagates err)
                | None =>
                    (set_path self1 oldpath,
                     Output.release
                       (Output.write (Output.acquire out)
                          (Output.Invoked (cmd_id cmd) tokens kwargs)),
                     NextLine)
                end
          | None =>
              if nsfound then dispatch self1 out oldpath kwargs tokens
              else (self1, Output.write out Output.CommandNotFound, NextLine)
          end
      end in
    footprint kwargs out r.1.2 r.2).
  { intros self1 nsfound.
    destruct (cwd self1) as [here1|err]; [|apply fp_lookup_failed].
    destruct (Dict.get token (commands (ns here1))) as [cmd|].
    - destruct (Output.locked out) eqn:Hlock; [by apply fp_blocked|].
      destruct (run cmd tokens kwargs) as [err|] eqn:Hrun.
      + destruct (is_Exception err) eqn:Hexc;
          [by apply fp_raised | by apply fp_escaped].
      + by apply fp_returned.
    - destruct nsfound; [apply IH | apply fp_not_found]. }
  destruct (Dict.get token (namespaces (ns here))) as [child|].
  - exact (Hstep (cd self token child) true).
  - exact (Hstep self false).
Qed.

(** Every line has one of the footprints, for the keyword arguments it
    was tokenized into, or leaves the terminal as it was. *)
Lemma repl_line_footprint (self : MainLoop.t) (out : Output.t) (raw : string) :
  ((repl_line self out raw).1.2 = out /\ (repl_line self out raw).2 <> Blocked)
  \/ exists kwargs,
       footprint kwargs out (repl_line self out raw).1.2 (repl_line self out raw).2.
Proof.
  unfold repl_line.
  destruct (strip raw) as [|c0 tail]; [left; by split|].
  destruct (if Ascii.eqb c0 "/" then (set_path self (root_path self), tail)
            else (self, String c0 tail)) as [self1 line1].
  assert (Heval :
    let r := match tokenize line1 with
             | Raise e => (self1, out, Propagates e)
             | Ok (tokens, kwargs) => dispatch self1 out (path self1) kwargs tokens
             end in
    (r.1.2 = out /\ r.2 <> Blocked)
    \/ exists kwargs, footprint kwargs out r.1.2 r.2).
  { destruct (tokenize line1) as [[tokens kwargs]|e]; [|left; by split].
    right. exists kwargs. apply dispatch_footprint. }
  destruct (String.eqb line1 ".."); [|exact Heval].
  destruct (1 <? length (path self1))%nat; [left; by split | exact Heval].
Qed.

(** The lock over one run of the dispatch loop, from a free lock. *)
Lemma dispatch_lock (kwargs : gmap string string) (oldpath : list PathItem)
  (tokens : list string) :
  forall (self : MainLoop.t) (out : Output.t),
    Output.locked out = false ->
    let r := dispatch self out oldpath kwargs tokens in
    (Output.locked r.1.2 = false
     /\ (Output.acquired r.1.2 + Output.released out
         = Output.acquired out + Output.released r.1.2)%nat)
    \/ (Output.locked r.1.2 = true
        /\ Output.acquired r.1.2 = S (Output.acquired out)
        /\ Output.released r.1.2 = Output.released out
        /\ raised_call kwargs tokens out r.1.1 r.1.2).
Proof.
  induction tokens as [|token tokens IH]; intros self out Hfree.
  { left. simpl. split; [exact Hfree | lia]. }
  simpl.
  destruct (Dict.get token (builtin_commands self)) as [b|].
  { left. destruct (run b tokens kwargs); simpl; (split; [exact Hfree | lia]). }
  destruct (cwd self) as [here|err];
    [|left; simpl; split; [exact Hfree | lia]].
  assert (Hstep : forall (self1 : MainLoop.t) (nsfound : bool),
    let r :=
      match cwd self1 with
      | Raise err =>
          (self1,
           Output.write (Output.write out (Output.ErrorLine err)) Output.Traceback,
           NextLine)
      | Ok here1 =>
          match Dict.get token (commands (ns here1)) with
          | Some cmd =>
              if Output.locked out then (self1, out, Blocked)
              else
                match run cmd tokens kwargs with
                | Some err =>
                    if is_Exception err
                    then (self1,
                          Output.write
                            (Output.write
                               (Output.write (Output.acquire out)
                                  (Output.Invoked (cmd_id cmd) tokens kwargs))
                               (Output.ErrorLine err)) Output.Traceback,
                          NextLine)
                    else (self1,
                          Output.write (Output.acquire out)
                            (Output.Invoked (cmd_id cmd) tokens kwargs),
                          Propagates err)
                | None =>
                    (set_path self1 oldpath,
                     Output.release
                       (Output.write (Output.acquire out)
                          (Output.Invoked (cmd_id cmd) tokens kwargs)),
                     NextLine)
                end
          | None =>
              if nsfound then dispatch self1 out oldpath kwargs tokens
              else (self1, Output.write out Output.CommandNotFound, NextLine)
          end
      end in
    (Output.locked r.1.2 = false
     /\ (Output.acquired r.1.2 + Output.released out
         = Output.acquired out + Output.released r.1.2)%nat)
    \/ (Output.locked r.1.2 = true
        /\ Output.acquired r.1.2 = S (Output.acquired out)
        /\ Output.released r.1.2 = Output.released out
        /\ raised_call kwargs (token :: tokens) out r.1.1 r.1.2)).
  { intros self1 nsfound.
    destruct (cwd self1) as [here1|err] eqn:Hcwd;
      [|left; simpl; split; [exact Hfree | lia]].
    destruct (Dict.get token (commands (ns here1))) as [cmd|] eqn:Hcmd.
    - rewrite Hfree.
      destruct (run cmd tokens kwargs) as [err|] eqn:Hrun.
      + right. destruct (is_Exception err) eqn:Hexc; simpl;
          (split; [reflexivity|]; split; [reflexivity|]; split; [reflexivity|]);
          exists [], token, tokens, here1, cmd, err; rewrite Hexc;
          repeat split; try assumption;
          simpl; by rewrite <- ?app_assoc.
      + left. simpl. split; [reflexivity | lia].
    - destruct nsfound; [|left; simpl; split; [exact Hfree | lia]].
      destruct (IH self1 out Hfree) as [H|(H1 & H2 & H3 & H4)]; [by left|].
      right. repeat split; try assumption.
      destruct H4 as (prefix & tok & args & here' & cmd & err & -> & H5).
      by exists (token :: prefix), tok, args, here', cmd, err. }
  destruct (Dict.get token (namespaces (ns here))) as [child|].
  - exact (Hstep (cd self token child) true).
  - exact (Hstep self false).
Qed.

(** X11: The lock protocol of a line, from a free lock: either the lock
    is free again after the line and every [acquire] of the line has its
    [release], or the lock is held, with one [acquire] and no [release],
    and then the line ended in the call of a command that raised: the
    line, without a [/] in front, tokenizes into tokens one of which
    names, in the namespace where the loop stands after the line, a
    command whose [run] raises on the tokens after it and the keyword
    arguments of the line, and the record of that very call, with the
    report of the error when the loop caught it, is all the line wrote. *)
Theorem lock_held_only_after_raise (self : MainLoop.t) (out : Output.t)
  (raw : string) :
  Output.locked out = false ->
  let r := repl_line self out raw in
  (Output.locked r.1.2 = false
   /\ (Output.acquired r.1.2 + Output.released out
       = Output.acquired out + Output.released r.1.2)%nat)
  \/ (Output.locked r.1.2 = true
      /\ Output.acquired r.1.2 = S (Output.acquired out)
      /\ Output.released r.1.2 = Output.released out
      /\ exists (line : string) (tokens : list string)
                (kwargs : gmap string string),
           (strip raw = line \/ strip raw = String "/" line)
           /\ tokenize line = Ok (tokens, kwargs)
           /\ raised_call kwargs tokens out r.1.1 r.1.2).
Proof.
  intros Hfree. unfold repl_line.
  destruct (strip raw) as [|c0 tail] eqn:Hstrip;
    [left; split; [exact Hfree | simpl; lia]|].
  assert (Hline : exists self1 line1,
            (if Ascii.eqb c0 "/" then (set_path self (root_path self), tail)
             else (self, String c0 tail)) = (self1, line1)
            /\ (String c0 tail = line1 \/ String c0 tail = String "/" line1)).
  { destruct (Ascii.eqb_spec c0 "/") as [->|_]; eexists _, _; split;
      (reflexivity || (by right) || by left). }
  destruct Hline as (self1 & line1 & -> & Hline1).
  assert (Heval :
    let r := match tokenize line1 with
             | Raise e => (self1, out, Propagates e)
             | Ok (tokens, kwargs) => dispatch self1 out (path self1) kwargs tokens
             end in
    (Output.locked r.1.2 = false
     /\ (Output.acquired r.1.2 + Output.released out
         = Output.acquired out + Output.released r.1.2)%nat)
    \/ (Output.locked r.1.2 = true
        /\ Output.acquired r.1.2 = S (Output.acquired out)
        /\ Output.released r.1.2 = Output.released out
        /\ exists (line : string) (tokens : list string)
                  (kwargs : gmap string string),
             (String c0 tail = line \/ String c0 tail = String "/" line)
             /\ tokenize line = Ok (tokens, kwargs)
             /\ raised_call kwargs tokens out r.1.1 r.1.2)).
  { destruct (tokenize line1) as [[tokens kwargs]|e] eqn:Htok;
      [|left; split; [exact Hfree | simpl; lia]].
    destruct (dispatch_lock kwargs (path self1) tokens self1 out Hfree)
      as [H|(H1 & H2 & H3 & H4)]; [by left|].
    right. repeat split; try assumption. by exists line1, tokens, kwargs. }
  destruct (String.eqb line1 ".."); [|exact Heval].
  destruct (1 <? length (path self1))%nat; [|exact Heval].
  left. split; [exact Hfree | simpl; lia].
Qed.

Lemma lock_held_only_after_raise_witness :
  let bar := Examples.failing "bar" (RuntimeError "boom") in
  let ctx := Context.set_root_ns (Context.init "C") (Examples.foo_bar_root bar) in
  let self := MainLoop.init Examples.builtin_commands ctx in
  Output.locked (repl_line self Output.init "foo").1.2 = false
  /\ Output.locked (repl_line self Output.init "foo bar").1.2 = true.
Proof.
  intros bar ctx self. split.
  - destruct (lock_held_only_after_raise self Output.init "foo" eq_refl)
      as [[H _]|[H _]]; [exact H | discriminate H].
  - destruct (lock_held_only_after_raise self Output.init "foo bar" eq_refl)
      as [[H _]|[H _]]; [discriminate H | exact H].
Defined.

(** With the lock free, a line whose command returns cannot end with the
    lock held: in the tree with [foo] and its returning command [bar],
    no token of [foo bar] names a raising command where the loop stands. *)
Example returning_command_frees_lock :
  let bar := Examples.recorder "bar" in
  let ctx := Context.set_root_ns (Context.init "C") (Examples.foo_bar_root bar) in
  let self := MainLoop.init Examples.builtin_commands ctx in
  Output.locked (repl_line self Output.init "foo bar").1.2 = false
  /\ Output.released (repl_line self Output.init "foo bar").1.2 = 1%nat.
Proof. by split. Qed.

Lemma calls_app (a b : list Output.item) : calls (a ++ b) = (calls a + calls b)%nat.
Proof. unfold calls. by rewrite List.filter_app, length_app. Qed.

Lemma written_write (o : Output.t) (i : Output.item) :
  Output.written (Output.write o i) = (Output.written o ++ [i])%list.
Proof. reflexivity. Qed.

Lemma written_acquire (o : Output.t) :
  Output.written (Output.acquire o) = Output.written o.
Proof. reflexivity. Qed.

Lemma written_release (o : Output.t) :
  Output.written (Output.release o) = Output.written o.
Proof. reflexivity. Qed.

Lemma footprint_calls (kwargs : gmap string string) (out after : Output.t)
  (oc : outcome) :
  footprint kwargs out after oc ->
  exists extra : list Output.item,
    Output.written after = (Output.written out ++ extra)%list
    /\ (calls extra <= 1)%nat.
Proof.
  intros Hfp.
  destruct Hfp as [ | b args | | err | Hl | cmd args Hl Hrun
                  | cmd args err Hl Hrun Hexc | cmd args err Hl Hrun Hexc ];
    rewrite ?written_write, ?written_release, ?written_write, ?written_acquire,
      <- ?app_assoc;
    first [ exists []; rewrite app_nil_r; split; [reflexivity | unfold calls; simpl; lia]
          | eexists; split; [reflexivity | unfold calls; simpl; lia] ].
Qed.

(** X12: A line only adds to what is written, and it calls at most one
    command, builtin or not. *)
Theorem one_call_per_line (self : MainLoop.t) (out : Output.t) (raw : string) :
  exists extra : list Output.item,
    Output.written (repl_line self out raw).1.2 = (Output.written out ++ extra)%list
    /\ (calls extra <= 1)%nat.
Proof.
  destruct (repl_line_footprint self out raw) as [[-> _]|[kwargs Hfp]].
  - exists []. rewrite app_nil_r. split; [reflexivity | unfold calls; simpl; lia].
  - by eapply footprint_calls.
Qed.

(** What a name typed alone on a line is for the loop. *)
Lemma name_token_line (n : string) :
  name_token n = true ->
  exists c0 tail,
    n = String c0 tail
    /\ Ascii.eqb c0 "/" = false
    /\ String.eqb n ".." = false
    /\ strip n = n
    /\ tokenize n = Ok ([n], ∅).
Proof.
  unfold name_token, word. intros H.
  apply andb_true_iff in H as [H Hslash].
  apply andb_true_iff in H as [H Hdots].
  apply andb_true_iff in H as [Hword Heq].
  destruct n as [|c0 tail]; [discriminate|].
  apply andb_true_iff in Hword as [Hspace Hquote].
  exists c0, tail. split; [reflexivity|].
  split; [by apply negb_true_iff|]. split; [by apply negb_true_iff|].
  split; [by apply strip_no_space|].
  assert (Hq0 : Shlex.quotes c0 = false).
  { unfold no_quote in Hquote. simpl in Hquote.
    apply andb_true_iff in Hquote as [Hc _]. by apply negb_true_iff. }
  assert (Hsplit : Shlex.split (String c0 tail) = Ok [String c0 tail])
    by (apply split_one_token; [by apply no_space_no_whitespace | exact Hq0]).
  assert (Hp : all_chars (fun c => negb (Shlex.quotes c) && negb (Ascii.eqb c "="))
                 (String c0 tail) = true).
  { clear -Hquote Heq. unfold no_quote, without in *.
    induction (String c0 tail) as [|c s IH]; [reflexivity|]. simpl in *.
    apply andb_true_iff in Hquote as [H1 H2]. apply andb_true_iff in Heq as [H3 H4].
    rewrite H1, H3. simpl. by apply IH. }
  destruct (tokens_rule_plain [String c0 tail] [] ∅) as [Hex Hrule].
  { constructor; [discriminate | constructor]. }
  { constructor; [exact Hp | constructor]. }
  rewrite tokenize_unfold, Hsplit, Hex, Hrule. reflexivity.
Qed.

Lemma set_path_same (self : MainLoop.t) : set_path self (path self) = self.
Proof. by destruct self. Qed.

(** X13: Going down and up again: the name of a child namespace typed alone
    pushes one frame and writes nothing, and [..] on the next line brings
    the loop object back to what it was. *)
Theorem navigate_down_and_up (self : MainLoop.t) (out : Output.t)
  (n : string) (here : PathItem) (child : Namespace.t) :
  name_token n = true ->
  Dict.get n (builtin_commands self) = None ->
  cwd self = Ok here ->
  Dict.get n (namespaces (ns here)) = Some child ->
  Dict.get n (commands child) = None ->
  repl_line self out n = (cd self n child, out, NextLine)
  /\ repl_line (cd self n child) out ".." = (self, out, NextLine).
Proof.
  intros Hn Hb Hcwd Hns Hcmd.
  destruct (name_token_line n Hn) as (c0 & tail & -> & Hslash & Hdots & Hstrip & Htok).
  split.
  - rewrite (repl_line_evaluates self out _ c0 tail Hstrip Hslash Hdots), Htok.
    by rewrite (dispatch_descend self out (path self) ∅ _ [] here child).
  - destruct (repl_line_parent_below_root (cd self (String c0 tail) child) out)
      as [Hpop _].
    { simpl. rewrite length_app. simpl.
      unfold cwd in Hcwd. destruct (path self); [discriminate Hcwd|].
      simpl. lia. }
    rewrite Hpop. simpl path. rewrite removelast_last.
    f_equal. f_equal.
    transitivity (set_path self (path self)); [reflexivity | apply set_path_same].
Qed.

Lemma navigate_down_and_up_witness :
  let ctx := Context.set_root_ns (Context.init "C")
               (Examples.foo_bar_root (Examples.recorder "bar")) in
  let self := MainLoop.init Examples.builtin_commands ctx in
  let inside := cd self "foo" (Node [] [("bar", Examples.recorder "bar")]) in
  repl_line self Output.init "foo" = (inside, Output.init, NextLine)
  /\ repl_line inside Output.init ".." = (self, Output.init, NextLine).
Proof.
  intros ctx self inside.
  apply (navigate_down_and_up self Output.init "foo"
           (mkPathItem "" (Examples.foo_bar_root (Examples.recorder "bar")))
           (Node [] [("bar", Examples.recorder "bar")]));
    reflexivity.
Defined.

(** X14: A line that starts with [/] is evaluated from the root whatever the
    current path is: [/] alone resets the path to the root frame, and
    [/name] leaves the path at the child [name] of the root. *)
Theorem absolute_navigation (self : MainLoop.t) (out : Output.t)
  (n : string) (root : PathItem) (child : Namespace.t) :
  name_token n = true ->
  Dict.get n (builtin_commands self) = None ->
  root_path self = [root] ->
  Dict.get n (namespaces (ns root)) = Some child ->
  Dict.get n (commands child) = None ->
  repl_line self out "/" = (set_path self [root], out, NextLine)
  /\ repl_line self out (String "/" n)
     = (set_path self [root; mkPathItem n child], out, NextLine).
Proof.
  intros Hn Hb Hroot Hns Hcmd.
  destruct (name_token_line n Hn) as (c0 & tail & -> & Hslash & Hdots & Hstrip & Htok).
  split.
  - unfold repl_line. simpl. by rewrite Hroot.
  - assert (Hs : strip (String "/" (String c0 tail)) = String "/" (String c0 tail)).
    { apply strip_no_space. unfold no_space. simpl.
      unfold name_token, word in Hn.
      apply andb_true_iff in Hn as [Hn _]. apply andb_true_iff in Hn as [Hn _].
      apply andb_true_iff in Hn as [Hn _]. apply andb_true_iff in Hn as [Hn _].
      exact Hn. }
    unfold repl_line. rewrite Hs. cbv beta iota zeta.
    change (Ascii.eqb "/" "/") with true. cbv beta iota.
    rewrite Hdots, Htok.
    rewrite (dispatch_descend (set_path self (root_path self)) out _ ∅ _ [] root child);
      [ | exact Hb | simpl; by rewrite Hroot | exact Hns | exact Hcmd ].
    simpl. by rewrite Hroot.
Qed.

Lemma absolute_navigation_witness :
  let bar := Examples.recorder "bar" in
  let ctx := Context.set_root_ns (Context.init "C") (Examples.foo_bar_root bar) in
  let self := MainLoop.init Examples.builtin_commands ctx in
  let root := mkPathItem "" (Examples.foo_bar_root bar) in
  let deep := cd (cd self "foo" (Node [] [("bar", bar)])) "x" (Node [] []) in
  repl_line deep Output.init "/" = (set_path deep [root], Output.init, NextLine)
  /\ repl_line deep Output.init "/foo"
     = (set_path deep [root; mkPathItem "foo" (Node [] [("bar", bar)])],
        Output.init, NextLine).
Proof.
  intros bar ctx self root deep.
  apply (absolute_navigation deep Output.init "foo" root (Node [] [("bar", bar)]));
    reflexivity.
Defined.

(** X15: The path after a command: a line that goes down into a namespace and
    calls one of its commands leaves the path where the line started when
    the command returns, and leaves it inside the namespace when the
    command raises. *)
Theorem path_after_command (self : MainLoop.t) (out : Output.t)
  (kwargs : gmap string string) (n c : string) (args : list string)
  (here : PathItem) (child : Namespace.t) (cmd : Command) :
  Dict.get n (builtin_commands self) = None ->
  Dict.get c (builtin_commands self) = None ->
  cwd self = Ok here ->
  Dict.get n (namespaces (ns here)) = Some child ->
  Dict.get n (commands child) = None ->
  Dict.get c (namespaces child) = None ->
  Dict.get c (commands child) = Some cmd ->
  Output.locked out = false ->
  path (dispatch self out (path self) kwargs (n :: c :: args)).1.1 =
  match run cmd args kwargs with
  | None => path self
  | Some _ => (path self ++ [mkPathItem n child])%list
  end.
Proof.
  intros Hbn Hbc Hcwd Hns Hncmd Hcns Hcmd Hfree.
  rewrite (dispatch_descend self out (path self) kwargs n (c :: args) here child)
    by assumption.
  rewrite (dispatch_command (cd self n child) out (path self) kwargs c args
             (mkPathItem n child) cmd);
    [ | exact Hbc | apply cwd_cd | exact Hcns | exact Hcmd | exact Hfree ].
  cbv zeta. destruct (run cmd args kwargs) as [err|]; [|reflexivity].
  by destruct (is_Exception err).
Qed.

Lemma path_after_command_witness :
  let bad := Examples.failing "bar" (RuntimeError "boom") in
  let ctx := Context.set_root_ns (Context.init "C") (Examples.foo_bar_root bad) in
  let self := MainLoop.init Examples.builtin_commands ctx in
  map name (path (dispatch self Output.init (path self) ∅ ["foo"; "bar"]).1.1)
  = [""; "foo"].
Proof.
  intros bad ctx self.
  rewrite (path_after_command self Output.init ∅ "foo" "bar" []
             (mkPathItem "" (Examples.foo_bar_root bad))
             (Node [] [("bar", bad)]) bad);
    reflexivity.
Defined.

(** X16: A builtin typed alone is called outside the lock and outside the
    [try] block: when it returns the loop goes on with the next line,
    when it raises the exception leaves [repl] and the lines after it are
    not read. *)
Theorem builtin_line (self : MainLoop.t) (out : Output.t) (w : string)
  (b : Command) (rest : list string) :
  name_token w = true ->
  Dict.get w (builtin_commands self) = Some b ->
  let called := Output.write out (Output.Invoked (cmd_id b) [] ∅) in
  repl self out (w :: rest) =
  match run b [] ∅ with
  | Some e => (self, called, Propagates e)
  | None => repl self called rest
  end.
Proof.
  intros Hw Hb called.
  destruct (name_token_line w Hw) as (c0 & tail & -> & Hslash & Hdots & Hstrip & Htok).
  simpl repl.
  rewrite (repl_line_evaluates self out _ c0 tail Hstrip Hslash Hdots), Htok.
  simpl. rewrite Hb. by destruct (run b [] ∅).
Qed.

Lemma builtin_line_witness :
  let self := MainLoop.init Examples.builtin_commands (Context.init "C") in
  repl self Output.init ["exit"; "printenv"]
  = (self, Output.write Output.init (Output.Invoked "exit" [] ∅),
     Propagates SystemExit).
Proof.
  intros self.
  apply (builtin_line self Output.init "exit" (Examples.failing "exit" SystemExit)
           ["printenv"]); reflexivity.
Defined.

End MainLoopMore.

(** ** The session context, continued *)

Section ContextMore.

Import Namespace Context Config Words.

Lemma dict_get_set_ne {V : Type} (key other : string) (v : V)
  (d : list (string * V)) :
  other <> key -> Dict.get other (Dict.set key v d) = Dict.get other d.
Proof.
  intros Hne. induction d as [|[k w] d IH]; simpl.
  - destruct (String.eqb_spec other key); [congruence | reflexivity].
  - destruct (String.eqb_spec key k) as [->|Hk]; simpl.
    + destruct (String.eqb_spec other k); [congruence | reflexivity].
    + destruct (String.eqb other k); [reflexivity | exact IH].
Qed.

Lemma dict_mem_set_other {V : Type} (key other : string) (v : V)
  (d : list (string * V)) :
  Dict.mem other d = true -> Dict.mem other (Dict.set key v d) = true.
Proof.
  unfold Dict.mem. destruct (String.eqb_spec other key) as [->|Hne].
  - by rewrite dict_get_set.
  - by rewrite dict_get_set_ne.
Qed.

(** X17: [attach_namespace] never raises, whatever the path, and touches
    nothing of the context but the namespace tree and the log. *)
Theorem attach_namespace_frame (self : Context.t) (path : string)
  (ns : Namespace.t) :
  let r := attach_namespace self path ns in
  r.2 = Ok tt
  /\ hostname r.1 = hostname self
  /\ plugin_dirs r.1 = plugin_dirs self
  /\ plugins r.1 = plugins self
  /\ variables r.1 = variables self.
Proof.
  intros r. unfold r, attach_namespace.
  destruct (resolve _ _); [|by repeat split].
  destruct (py_split_last "/" path) as [name ->]. by repeat split.
Qed.

Lemma split_app_sep (c : ascii) (a r : string) :
  without c a = true ->
  Py.split c (a ++ String c r) = a :: Py.split c r.
Proof.
  induction a as [|d a IH].
  - intros _. rewrite string_app_nil_l. simpl. by rewrite Ascii.eqb_refl.
  - rewrite string_app_cons. simpl. intros [Hd Ha]%andb_true_iff.
    rewrite (IH Ha). rewrite Ascii.eqb_sym.
    destruct (Ascii.eqb d c); [discriminate | reflexivity].
Qed.

Lemma split_no_sep (c : ascii) (p : string) :
  without c p = true -> Py.split c p = [p].
Proof.
  induction p as [|d p IH]; [reflexivity|].
  simpl. intros [Hd Hp]%andb_true_iff. rewrite (IH Hp), Ascii.eqb_sym.
  destruct (Ascii.eqb d c); [discriminate | reflexivity].
Qed.

(** X18: The text before the first [/] of an attach path is not looked at: the
    tree after the call is the same for [a/rest], whatever [a] is, as for
    [/rest]; and a path without [/] registers the namespace at the root
    under the whole path as its name. *)
Theorem attach_namespace_first_segment (self : Context.t) (a rest : string)
  (ns : Namespace.t) :
  without "/" a = true ->
  root_ns (attach_namespace self (a ++ String "/" rest) ns).1
    = root_ns (attach_namespace self (String "/" rest) ns).1
  /\ root_ns (attach_namespace self a ns).1
    = register_namespace (root_ns self) a ns.
Proof.
  intros Ha. split.
  - unfold attach_namespace.
    rewrite (split_app_sep "/" a rest Ha).
    change (Py.split "/" (String "/" rest)) with (EmptyString :: Py.split "/" rest).
    destruct (py_split_cons "/" rest) as (p & ps & ->).
    unfold list_inner. simpl tl.
    destruct (resolve (removelast (p :: ps)) (root_ns self)); [|reflexivity].
    change (list_last (a :: p :: ps)) with (list_last (p :: ps)).
    change (list_last (EmptyString :: p :: ps)) with (list_last (p :: ps)).
    reflexivity.
  - unfold attach_namespace. rewrite (split_no_sep "/" a Ha). reflexivity.
Qed.

Lemma attach_namespace_first_segment_witness :
  root_ns (attach_namespace (Context.init "C") ("host" ++ String "/" "foo") (Node [] [])).1
    = root_ns (attach_namespace (Context.init "C") (String "/" "foo") (Node [] [])).1
  /\ root_ns (attach_namespace (Context.init "C") "host" (Node [] [])).1
    = register_namespace (root_ns (Context.init "C")) "host" (Node [] []).
Proof.
  apply (attach_namespace_first_segment (Context.init "C") "host" "foo" (Node [] [])).
  reflexivity.
Defined.

Lemma read_config_file_object (fs : FileSystem) (self : Context.t)
  (file : string) (data : Json) :
  json_load fs file = Ok data ->
  well_formed data = true ->
  let r := read_config_file fs self file in
  r.2 = Ok tt
  /\ plugin_dirs r.1 = (plugin_dirs self ++ configured_dirs data)%list
  /\ plugins r.1 = plugins self
  /\ root_ns r.1 = root_ns self
  /\ trace r.1 = trace self.
Proof.
  intros Hload Hwf r. unfold r, read_config_file. rewrite Hload.
  destruct data as [| | | | |d]; try discriminate Hwf.
  simpl in Hwf |- *. unfold Dict.mem.
  destruct (Dict.get "cli" d) as [cli|]; [|by rewrite app_nil_r].
  destruct cli as [| | | | |c]; try discriminate Hwf.
  simpl. unfold Dict.mem.
  destruct (Dict.get "plugin-dirs" c) as [dirs|]; [|by rewrite app_nil_r].
  destruct dirs; simpl; rewrite ?app_nil_r; by repeat split.
Qed.

(** X19: A configuration document made of objects never makes
    [read_config_file] raise: the call returns and the list of plugin
    directories is the old list followed by the configured one, which is
    empty when [cli] or [plugin-dirs] is absent or [plugin-dirs] is not a
    list; nothing else of the context changes. *)
Theorem read_config_file_well_formed (fs : FileSystem) (self : Context.t)
  (file : string) (data : Json) :
  json_load fs file = Ok data ->
  well_formed data = true ->
  let r := read_config_file fs self file in
  r.2 = Ok tt
  /\ plugin_dirs r.1 = (plugin_dirs self ++ configured_dirs data)%list
  /\ plugins r.1 = plugins self
  /\ root_ns r.1 = root_ns self
  /\ trace r.1 = trace self.
Proof.
  intros Hload Hwf r. unfold r, read_config_file. rewrite Hload.
  destruct data as [| | | | |d]; try discriminate Hwf.
  simpl in Hwf |- *. unfold Dict.mem.
  destruct (Dict.get "cli" d) as [[| | | | |c]|]; try discriminate Hwf;
    [|by rewrite app_nil_r].
  simpl. unfold Dict.mem.
  destruct (Dict.get "plugin-dirs" c) as [[| | | |dirs|]|]; simpl;
    rewrite ?app_nil_r; by repeat split.
Qed.

Lemma read_config_file_well_formed_witness :
  let doc := JObj [("cli", JObj [("plugin-dirs", JList [JStr "/p"; JStr "/q"])])] in
  let fs := {| json_load := fun _ => Ok doc; source := fun _ => Raise IOError |} in
  let r := read_config_file fs (Context.init "C") "cli.conf" in
  r.2 = Ok tt
  /\ plugin_dirs r.1 = [JStr "/p"; JStr "/q"]
  /\ plugins r.1 = []
  /\ root_ns r.1 = RootNamespace
  /\ trace r.1 = [].
Proof.
  intros doc fs.
  apply (read_config_file_well_formed fs (Context.init "C") "cli.conf" doc);
    reflexivity.
Defined.

(** X20: A document whose top level, or whose [cli] entry, is [null], a
    boolean or a number makes [read_config_file] raise [TypeError]: the
    membership test is applied to a value that is not a container.  The
    context is left as it was. *)
Theorem read_config_file_scalar (fs : FileSystem) (self : Context.t)
  (file : string) (data : Json) :
  json_load fs file = Ok data ->
  (scalar data = true
   \/ exists d cli, data = JObj d /\ Dict.get "cli" d = Some cli
                    /\ scalar cli = true) ->
  exists msg, read_config_file fs self file = (self, Raise (TypeError msg)).
Proof.
  intros Hload Hshape. unfold read_config_file. rewrite Hload.
  destruct Hshape as [Hs | (d & cli & -> & Hcli & Hs)].
  - destruct data; try discriminate Hs; simpl; eauto.
  - simpl. unfold Dict.mem. rewrite Hcli.
    destruct cli; try discriminate Hs; simpl; eauto.
Qed.

Lemma read_config_file_scalar_witness :
  let fs := {| json_load := fun _ => Ok (JObj [("cli", JNull)]);
               source := fun _ => Raise IOError |} in
  exists msg,
    read_config_file fs (Context.init "C") "cli.conf"
    = (Context.init "C", Raise (TypeError msg)).
Proof.
  intros fs.
  apply (read_config_file_scalar fs (Context.init "C") "cli.conf"
           (JObj [("cli", JNull)])); [reflexivity|].
  right. exists [("cli", JNull)], JNull. by repeat split.
Defined.

(** X21: Reading the same well-formed file twice appends its directories
    twice: the call does not check what the list already holds. *)
Theorem read_config_file_twice (fs : FileSystem) (self : Context.t)
  (file : string) (data : Json) :
  json_load fs file = Ok data ->
  well_formed data = true ->
  let once := (read_config_file fs self file).1 in
  plugin_dirs (read_config_file fs once file).1
  = (plugin_dirs self ++ configured_dirs data ++ configured_dirs data)%list.
Proof.
  intros Hload Hwf once.
  destruct (read_config_file_object fs once file data Hload Hwf)
    as (_ & -> & _).
  unfold once.
  destruct (read_config_file_object fs self file data Hload Hwf)
    as (_ & -> & _).
  by rewrite <- app_assoc.
Qed.

Lemma read_config_file_twice_witness :
  let doc := JObj [("cli", JObj [("plugin-dirs", JList [JStr "/p"])])] in
  let fs := {| json_load := fun _ => Ok doc; source := fun _ => Raise IOError |} in
  let once := (read_config_file fs (Context.init "C") "cli.conf").1 in
  plugin_dirs (read_config_file fs once "cli.conf").1 = [JStr "/p"; JStr "/p"].
Proof.
  intros doc fs.
  apply (read_config_file_twice fs (Context.init "C") "cli.conf" doc); reflexivity.
Defined.

Lemma dict_mem_set_ne {V : Type} (key other : string) (v : V)
  (d : list (string * V)) :
  other <> key -> Dict.mem other (Dict.set key v d) = Dict.mem other d.
Proof. intros Hne. unfold Dict.mem. by rewrite dict_get_set_ne. Qed.

Lemma dict_set_length {V : Type} (key : string) (v : V) (d : list (string * V)) :
  Dict.mem key d = false -> length (Dict.set key v d) = S (length d).
Proof.
  unfold Dict.mem. induction d as [|[k w] d IH]; simpl; [reflexivity|].
  destruct (String.eqb key k); [discriminate|].
  intros Hd. simpl. by rewrite IH.
Qed.

(** [attach_namespace] leaves the module alone, and what it does to the
    tree and to the log does not depend on the rest of the context. *)
Lemma attach_namespace_module (self : Context.t) (path : string) (ns : Namespace.t) :
  plugin_module (attach_namespace self path ns).1 = plugin_module self.
Proof.
  unfold attach_namespace.
  destruct (resolve _ _); [|reflexivity].
  by destruct (list_last (Py.split "/" path)).
Qed.

Lemma attach_namespace_effect (self other : Context.t) (path : string)
  (ns : Namespace.t) :
  root_ns self = root_ns other ->
  root_ns (attach_namespace self path ns).1
  = root_ns (attach_namespace other path ns).1
  /\ exists warnings,
       trace (attach_namespace self path ns).1 = (trace self ++ warnings)%list
       /\ Forall (fun e => exists p, e = Warn cannot_attach p) warnings.
Proof.
  intros Hroot. unfold attach_namespace. rewrite Hroot.
  destruct (resolve _ _).
  - destruct (list_last (Py.split "/" path)); simpl;
      (split; [by rewrite ?Hroot|]); exists []; by rewrite app_nil_r.
  - simpl. split; [exact Hroot|].
    exists [Warn cannot_attach path]. split; [reflexivity|].
    constructor; [by exists path | constructor].
Qed.

Lemma run_attaches_effect (calls : list (string * Namespace.t)) :
  forall self other : Context.t,
    root_ns self = root_ns other ->
    plugin_module (run_attaches self calls).1 = plugin_module self
    /\ root_ns (run_attaches self calls).1 = root_ns (run_attaches other calls).1
    /\ exists warnings,
         trace (run_attaches self calls).1 = (trace self ++ warnings)%list
         /\ Forall (fun e => exists p, e = Warn cannot_attach p) warnings.
Proof.
  induction calls as [|[path ns] rest IH]; intros self other Hroot; simpl.
  { split; [reflexivity|]. split; [exact Hroot|].
    exists []. by rewrite app_nil_r. }
  pose proof (attach_namespace_returns self path ns) as Hok.
  pose proof (attach_namespace_returns other path ns) as Hok'.
  pose proof (attach_namespace_module self path ns) as Hmod.
  destruct (attach_namespace_effect self other path ns Hroot)
    as (Hr & w1 & Htr & Hw1).
  destruct (attach_namespace self path ns) as [self' r].
  destruct (attach_namespace other path ns) as [other' r'].
  simpl in *. subst r r'.
  destruct (IH self' other' Hr) as (Hmod' & Hroot' & w2 & Htr' & Hw2).
  split; [by rewrite Hmod'|]. split; [exact Hroot'|].
  exists (w1 ++ w2)%list. split; [by rewrite Htr', Htr, <- app_assoc|].
  by apply Forall_app.
Qed.

(** What one load of a fresh path records when the file defines an
    [_init] that returns. *)
Lemma try_load_plugin_recorded (fs : FileSystem) (self : Context.t)
  (path : string) (plugin : Plugin) (hook : InitHook) :
  source fs path = Ok plugin ->
  init_hook plugin = Some hook ->
  init_raises hook = None ->
  Dict.mem path (plugins self) = false ->
  let r := try_load_plugin fs self path in
  r.2 = Ok tt
  /\ plugins r.1 = Dict.set path sys_modules_plugin (plugins self)
  /\ plugin_module r.1 = exec_file (plugin_module self) path plugin.
Proof.
  intros Hsrc Hinit Hret Hmem r. unfold r.
  rewrite (try_load_plugin_with_init fs self path plugin hook Hsrc Hinit Hmem).
  unfold run_init. set (c := emit _ (InitCalled path)).
  destruct (run_attaches_returns (attaches hook) c) as [Hok Hpl].
  destruct (run_attaches_effect (attaches hook) c c eq_refl) as (Hmod & _).
  destruct (run_attaches c (attaches hook)) as [c' res]. simpl in Hok, Hpl, Hmod.
  subst res. rewrite Hret. simpl. by rewrite Hpl, Hmod.
Qed.

(** What [login_plugins] does, generalised over the values still to be
    visited: the hook the module holds is called once for each of
    them. *)
Lemma login_fold (ps : list (string * module_ref)) :
  forall c : Context.t,
    let r := fold_left
               (fun c (i : string * module_ref) =>
                  match mod_login (plugin_module c) with
                  | Some owner => emit c (LoginCalled owner)
                  | None => c
                  end)
               ps c in
    trace r = (trace c
               ++ match mod_login (plugin_module c) with
                  | Some owner => repeat (LoginCalled owner) (length ps)
                  | None => []
                  end)%list.
Proof.
  induction ps as [|i ps IH]; intros c; simpl.
  - destruct (mod_login (plugin_module c)); by rewrite app_nil_r.
  - destruct (mod_login (plugin_module c)) as [owner|] eqn:Hm.
    + rewrite IH. simpl. rewrite Hm. by rewrite <- app_assoc.
    + rewrite IH. by rewrite Hm.
Qed.

(** X22: One [_login] serves every plugin.  When two fresh files that
    each define an [_init] that returns are loaded one after the other,
    and the second defines [_login], both paths are recorded, and
    [login_plugins] calls the [_login] of the second file once for every
    recorded path and no other hook: the [_login] the first file may
    define is never called.  Both paths map to the one module named
    [plugin], in which the second file ran last. *)
Theorem login_calls_last_defined_hook (fs : FileSystem) (self : Context.t)
  (a b : string) (pa pb : Plugin) (ha hb : InitHook) :
  a <> b ->
  Dict.mem a (plugins self) = false ->
  Dict.mem b (plugins self) = false ->
  source fs a = Ok pa -> init_hook pa = Some ha -> init_raises ha = None ->
  source fs b = Ok pb -> init_hook pb = Some hb -> init_raises hb = None ->
  login_hook pb = true ->
  let loaded := (try_load_plugin fs (try_load_plugin fs self a).1 b).1 in
  Dict.mem a (plugins loaded) = true
  /\ Dict.mem b (plugins loaded) = true
  /\ trace (login_plugins loaded)
     = (trace loaded
        ++ repeat (LoginCalled b) (length (plugins self) + 2))%list.
Proof.
  intros Hab Hma Hmb Hsa Hia Hra Hsb Hib Hrb Hlb loaded.
  destruct (try_load_plugin_recorded fs self a pa ha Hsa Hia Hra Hma)
    as (_ & Hpl1 & Hmod1).
  set (once := (try_load_plugin fs self a).1) in *.
  assert (Hmb1 : Dict.mem b (plugins once) = false).
  { rewrite Hpl1, dict_mem_set_ne; [exact Hmb | by intros ->]. }
  destruct (try_load_plugin_recorded fs once b pb hb Hsb Hib Hrb Hmb1)
    as (_ & Hpl2 & Hmod2).
  fold loaded in Hpl2, Hmod2.
  split; [rewrite Hpl2, Hpl1; apply dict_mem_set_other, dict_mem_set|].
  split; [rewrite Hpl2; apply dict_mem_set|].
  unfold login_plugins. rewrite (login_fold (plugins loaded) loaded).
  rewrite Hmod2. unfold exec_file at 1. simpl. rewrite Hlb.
  rewrite Hpl2, dict_set_length by exact Hmb1.
  rewrite Hpl1, dict_set_length by exact Hma.
  by replace (length (plugins self) + 2)%nat with (S (S (length (plugins self))))
    by lia.
Qed.

Lemma login_calls_last_defined_hook_witness :
  let hook := {| attaches := []; init_raises := None |} in
  let both := {| init_hook := Some hook; login_hook := true |} in
  let fs := {| json_load := fun _ => Raise IOError; source := fun _ => Ok both |} in
  let loaded := (try_load_plugin fs
                   (try_load_plugin fs (Context.init "C") "/p/a.py").1
                   "/p/b.py").1 in
  Dict.mem "/p/a.py" (plugins loaded) = true
  /\ Dict.mem "/p/b.py" (plugins loaded) = true
  /\ trace (login_plugins loaded)
     = (trace loaded ++ [LoginCalled "/p/b.py"; LoginCalled "/p/b.py"])%list.
Proof.
  intros hook both fs.
  apply (login_calls_last_defined_hook fs (Context.init "C") "/p/a.py" "/p/b.py"
           both both hook hook);
    (reflexivity || discriminate).
Defined.

(** X23: A file without [_init] that is loaded after a file with [_init]
    runs the [_init] of the earlier file again and is recorded.  For two
    fresh paths, the first with an [_init] that returns and the second
    with none, the load of the second returns, logs the execution of the
    second file and then a call of the [_init] of the first, whose
    attaches are made again from the tree as the first load left it, and
    records the second path, so [login_plugins] visits it. *)
Theorem load_without_init_after_init (fs : FileSystem) (self : Context.t)
  (a b : string) (pa pb : Plugin) (hook : InitHook) :
  a <> b ->
  Dict.mem a (plugins self) = false ->
  Dict.mem b (plugins self) = false ->
  source fs a = Ok pa -> init_hook pa = Some hook -> init_raises hook = None ->
  source fs b = Ok pb -> init_hook pb = None ->
  let once := (try_load_plugin fs self a).1 in
  let r := try_load_plugin fs once b in
  r.2 = Ok tt
  /\ Dict.mem b (plugins r.1) = true
  /\ root_ns r.1 = root_ns (run_attaches once (attaches hook)).1
  /\ exists warnings,
       trace r.1
       = (trace once
          ++ [Debug loading_plugin b; Executed b; InitCalled a]
          ++ warnings)%list
       /\ Forall (fun e => exists p, e = Warn cannot_attach p) warnings.
Proof.
  intros Hab Hma Hmb Hsa Hia Hra Hsb Hib once r.
  destruct (try_load_plugin_recorded fs self a pa hook Hsa Hia Hra Hma)
    as (_ & Hpl1 & Hmod1).
  fold once in Hpl1, Hmod1.
  assert (Hmb1 : Dict.mem b (plugins once) = false).
  { rewrite Hpl1, dict_mem_set_ne; [exact Hmb | by intros ->]. }
  assert (Hm : mod_init (exec_file (plugin_module once) b pb) = Some (a, hook)).
  { unfold exec_file at 1. simpl. rewrite Hib, Hmod1.
    by apply mod_init_exec_file. }
  unfold r, try_load_plugin. rewrite Hmb1, Hsb. cbv zeta.
  change (plugin_module (emit once (Debug loading_plugin b)))
    with (plugin_module once).
  rewrite Hm. unfold run_init.
  set (c := emit _ (InitCalled a)).
  destruct (run_attaches_returns (attaches hook) c) as [Hok Hpl].
  destruct (run_attaches_effect (attaches hook) c once eq_refl)
    as (_ & Hroot & warnings & Htr & Hw).
  destruct (run_attaches c (attaches hook)) as [c' res].
  simpl in Hok, Hpl, Hroot, Htr. subst res. rewrite Hra. simpl.
  split; [reflexivity|]. split; [apply dict_mem_set|].
  split; [exact Hroot|].
  exists warnings. split; [|exact Hw].
  rewrite Htr. unfold c. simpl. by rewrite <- !app_assoc.
Qed.

Lemma load_without_init_after_init_witness :
  let once := (try_load_plugin Examples.files (Context.init "C") "/p/hooks.py").1 in
  let r := try_load_plugin Examples.files once "/p/plain.py" in
  r.2 = Ok tt
  /\ Dict.mem "/p/plain.py" (plugins r.1) = true
  /\ root_ns r.1
     = root_ns (run_attaches once [("/foo", Node [] [])]).1
  /\ exists warnings,
       trace r.1
       = (trace once
          ++ [Debug loading_plugin "/p/plain.py"; Executed "/p/plain.py";
              InitCalled "/p/hooks.py"]
          ++ warnings)%list
       /\ Forall (fun e => exists p, e = Warn cannot_attach p) warnings.
Proof.
  apply (load_without_init_after_init Examples.files (Context.init "C")
           "/p/hooks.py" "/p/plain.py"
           {| init_hook := Some {| attaches := [("/foo", Node [] [])];
                                   init_raises := None |};
              login_hook := false |}
           {| init_hook := None; login_hook := true |}
           {| attaches := [("/foo", Node [] [])]; init_raises := None |});
    (reflexivity || discriminate).
Defined.

(** X24: A load that fails records nothing.  When the file cannot be loaded
    the exception goes to the caller with nothing executed; when [_init]
    raises, the exception goes to the caller after the attaches the hook
    made before, which stay in the tree.  In both cases the path is not
    recorded, so a later load tries again. *)
Theorem try_load_plugin_failure (fs : FileSystem) (self : Context.t)
  (path : string) :
  Dict.mem path (plugins self) = false ->
  (forall e, source fs path = Raise e ->
     try_load_plugin fs self path = (emit self (Debug loading_plugin path), Raise e))
  /\ (forall pl hook e,
        source fs path = Ok pl -> init_hook pl = Some hook ->
        init_raises hook = Some e ->
        let r := try_load_plugin fs self path in
        r.2 = Raise e
        /\ plugins r.1 = plugins self
        /\ Dict.mem path (plugins r.1) = false
        /\ root_ns r.1
           = root_ns (run_attaches
                        (emit (emit (emit self (Debug loading_plugin path))
                                 (Executed path)) (InitCalled path))
                        (attaches hook)).1).
Proof.
  intros Hmem. split.
  - intros e Hsrc. unfold try_load_plugin. by rewrite Hmem, Hsrc.
  - intros pl hook e Hsrc Hinit Hraise r. unfold r.
    rewrite (try_load_plugin_with_init fs self path pl hook Hsrc Hinit Hmem).
    unfold run_init. set (c := emit _ (InitCalled path)).
    destruct (run_attaches_returns (attaches hook) c) as [Hok Hpl].
    destruct (run_attaches_effect (attaches hook) c
                (emit (emit (emit self (Debug loading_plugin path))
                         (Executed path)) (InitCalled path)) eq_refl)
      as (_ & Hroot & _).
    destruct (run_attaches c (attaches hook)) as [c' res].
    simpl in Hok, Hpl, Hroot.
    subst res. rewrite Hraise. simpl. rewrite Hpl. by repeat split.
Qed.

Lemma try_load_plugin_failure_witness :
  let hook := {| attaches := [("/foo", Node [] [])];
                 init_raises := Some (RuntimeError "broken") |} in
  let fs := {| json_load := fun _ => Raise IOError;
               source := fun p =>
                 if String.eqb p "/p/bad.py"
                 then Ok {| init_hook := Some hook; login_hook := false |}
                 else Raise IOError |} in
  try_load_plugin fs (Context.init "C") "/p/none.py"
    = (emit (Context.init "C") (Debug loading_plugin "/p/none.py"), Raise IOError)
  /\ (try_load_plugin fs (Context.init "C") "/p/bad.py").2
     = Raise (RuntimeError "broken")
  /\ Dict.mem "foo" (namespaces
                       (root_ns (try_load_plugin fs (Context.init "C") "/p/bad.py").1))
     = true.
Proof.
  intros hook fs.
  destruct (try_load_plugin_failure fs (Context.init "C") "/p/none.py" eq_refl)
    as [Hnone _].
  destruct (try_load_plugin_failure fs (Context.init "C") "/p/bad.py" eq_refl)
    as [_ Hbad].
  split; [apply Hnone; reflexivity|].
  destruct (Hbad {| init_hook := Some hook; login_hook := false |} hook
              (RuntimeError "broken") eq_refl eq_refl eq_refl)
    as (Hr & _ & _ & Hroot).
  split; [exact Hr|]. rewrite Hroot. reflexivity.
Defined.

End ContextMore.

(** ** Completion, the prompt and the blanking of the input line *)

Section ReadlineFacts.

Import Namespace MainLoop Shape.

Lemma list_index_in {A : Type} (l : list A) (i : Z) (a : A) :
  list_index l i = Ok a -> In a l.
Proof.
  unfold list_index.
  destruct ((0 <=? _) && _); [|discriminate].
  destruct (nth_error l _) as [x|] eqn:Hnth; [|discriminate].
  intros [= <-]. by eapply nth_error_In.
Qed.

Lemma list_index_nat {A : Type} (l : list A) (n : nat) (a : A) :
  nth_error l n = Some a -> list_index l (Z.of_nat n) = Ok a.
Proof.
  intros Hnth. unfold list_index.
  assert (Hlt : (n < length l)%nat) by (apply nth_error_Some; congruence).
  destruct (Z.ltb_spec (Z.of_nat n) 0) as [Hneg|_]; [lia|].
  destruct (Z.leb_spec 0 (Z.of_nat n)) as [_|Hneg]; [|lia].
  destruct (Z.ltb_spec (Z.of_nat n) (Z.of_nat (length l))) as [_|Hge]; [|lia].
  simpl. by rewrite Nat2Z.id, Hnth.
Qed.

(** X26: The completer is sound and complete for the names of the current
    namespace and the builtins: whatever it returns starts with the text
    and is one of those names; every such name that starts with the text
    is returned for some state from 0 on; and from the number of matches
    on it returns [None], which ends the enumeration. *)
Theorem complete_enumerates (self : MainLoop.t) (text : string)
  (here : PathItem) :
  cwd self = Ok here ->
  let matches :=
    List.filter (fun i => String.prefix text i) (choices self here) in
  (forall state c,
     complete self text state = Ok (Some c) ->
     String.prefix text c = true /\ In c (choices self here))
  /\ (forall c,
        In c (choices self here) -> String.prefix text c = true ->
        exists state, 0 <= state < Z.of_nat (length matches)
                      /\ complete self text state = Ok (Some c))
  /\ (forall state,
        Z.of_nat (length matches) <= state ->
        complete self text state = Ok None).
Proof.
  intros Hcwd matches. unfold complete. rewrite Hcwd. simpl. fold matches.
  split; [|split].
  - intros state c.
    destruct (state <? Z.of_nat (length matches)); [|discriminate].
    destruct (list_index matches state) as [o|] eqn:Hidx; simpl; [|discriminate].
    intros [= <-]. apply list_index_in in Hidx.
    apply List.filter_In in Hidx as [Hin Hpre]. by split.
  - intros c Hin Hpre.
    assert (Hm : In c matches) by (apply List.filter_In; by split).
    apply In_nth_error in Hm as [n Hn].
    assert (Hlt : (n < length matches)%nat) by (apply nth_error_Some; congruence).
    exists (Z.of_nat n). split; [lia|].
    destruct (Z.ltb_spec (Z.of_nat n) (Z.of_nat (length matches))) as [_|Hge]; [|lia].
    by rewrite (list_index_nat matches n c Hn).
  - intros state Hge.
    by destruct (Z.ltb_spec state (Z.of_nat (length matches))) as [Hlt|_]; [lia|].
Qed.

Lemma complete_enumerates_witness :
  let ctx := Context.set_root_ns (Context.init "C")
               (Examples.foo_bar_root (Examples.recorder "bar")) in
  let self := MainLoop.init Examples.builtin_commands ctx in
  complete self "" 0 = Ok (Some "foo")
  /\ complete self "p" 0 = Ok (Some "printenv")
  /\ complete self "p" 1 = Ok None.
Proof.
  intros ctx self.
  destruct (complete_enumerates self "p"
              (mkPathItem "" (Examples.foo_bar_root (Examples.recorder "bar")))
              eq_refl) as (_ & _ & Hnone).
  split; [reflexivity|]. split; [reflexivity|].
  apply Hnone. simpl. lia.
Defined.

Lemma join_below (rest : list PathItem) :
  forall x : string, join "/" (x :: map name rest) = x ++ below rest.
Proof.
  induction rest as [|f rest IH]; intros x.
  - simpl. by rewrite string_app_nil_r.
  - change (join "/" (x :: map name (f :: rest)))
      with (x ++ "/" ++ join "/" (name f :: map name rest)).
    by rewrite IH.
Qed.

(** X27: The prompt is the path of the loop: whatever lines were entered,
    the path is the root frame, named by the host name of the context,
    followed by frames that go down the namespace tree, and the prompt is
    the host name, then [/] and the name of each of these frames in
    order, then [> ]. *)
Theorem prompt_is_path (builtin : list (string * Command))
  (ctx : Context.t) (out : Output.t) (input : list string) :
  let final := (repl (MainLoop.init builtin ctx) out input).1.1 in
  exists rest : list PathItem,
    path final = mkPathItem (Context.hostname ctx) (Context.root_ns ctx) :: rest
    /\ chain (Context.root_ns ctx) rest
    /\ get_prompt final = Context.hostname ctx ++ below rest ++ "> ".
Proof.
  destruct (repl_well_rooted _ input _ out (init_well_rooted builtin ctx))
    as [_ (rest & Hp & Hchain)].
  exists rest. split; [exact Hp|]. split; [exact Hchain|].
  unfold get_prompt. rewrite Hp.
  change (map name (mkPathItem (Context.hostname ctx) (Context.root_ns ctx) :: rest))
    with (Context.hostname ctx :: map name rest).
  by rewrite join_below, string_app_assoc.
Qed.

(** The prompt at the root and one namespace down. *)
Example prompt_after_foo :
  let ctx := Context.set_root_ns
               {| Context.hostname := "nas"; Context.plugin_dirs := [];
                  Context.plugins := []; Context.variables := VariableStore.init "C";
                  Context.root_ns := Node [] []; Context.trace := [];
                  Context.plugin_module := Context.empty_module |}
               (Examples.foo_bar_root (Examples.recorder "bar")) in
  let self := MainLoop.init Examples.builtin_commands ctx in
  get_prompt self = "nas> "
  /\ get_prompt (repl self Output.init ["foo"]).1.1 = "nas/foo> ".
Proof. by split. Qed.

Lemma repeat_string_0 (s : string) : repeat_string s 0 = EmptyString.
Proof. reflexivity. Qed.

(** X28: The rows [blank_readline] erases above the current one: with a
    positive number of columns it is the number [k] with
    [k * cols <= len + 2 < (k + 1) * cols], where [len] is the length of
    the text typed, so none when the text plus two fits in a row; with a
    negative number of columns it is none; with 0 columns the call raises
    after it erased the current line. *)
Theorem blank_readline_rows (line_buffer : string) (cols : Z) :
  let len := Z.of_nat (String.length line_buffer) in
  (0 < cols ->
   exists k : nat,
     blank_readline line_buffer cols
     = Blanked (erase_line ++ repeat_string up_and_erase k ++ to_column_0)
     /\ Z.of_nat k * cols <= len + 2 < (Z.of_nat k + 1) * cols)
  /\ (cols < 0 ->
      blank_readline line_buffer cols = Blanked (erase_line ++ to_column_0))
  /\ (cols = 0 ->
      blank_readline line_buffer cols = ZeroDivisionError erase_line).
Proof.
  intros len. unfold blank_readline. fold len. split; [|split].
  - intros Hpos. destruct (Z.eqb_spec cols 0) as [->|_]; [lia|].
    exists (Z.to_nat ((len + 2) / cols)). split; [reflexivity|].
    assert (Hq : 0 <= (len + 2) / cols) by (apply Z.div_pos; lia).
    rewrite Z2Nat.id by exact Hq.
    pose proof (Z.mul_div_le (len + 2) cols Hpos).
    pose proof (Z.mul_succ_div_gt (len + 2) cols Hpos).
    lia.
  - intros Hneg. destruct (Z.eqb_spec cols 0) as [->|_]; [lia|].
    assert (Hq : (len + 2) / cols < 0).
    { rewrite <- (Z.div_opp_opp (len + 2) cols) by lia.
      apply Z.div_lt_upper_bound; lia. }
    replace (Z.to_nat ((len + 2) / cols)) with 0%nat by lia.
    reflexivity.
  - intros ->. reflexivity.
Qed.

Lemma blank_readline_rows_witness :
  blank_readline "show volumes" 80 = Blanked (erase_line ++ to_column_0)
  /\ blank_readline "show volumes" (-1) = Blanked (erase_line ++ to_column_0)
  /\ blank_readline "show volumes" 0 = ZeroDivisionError erase_line.
Proof.
  destruct (blank_readline_rows "show volumes" 80) as ((k & Hk & Hb) & _ & _);
    [lia|].
  destruct (blank_readline_rows "show volumes" (-1)) as (_ & Hneg & _).
  destruct (blank_readline_rows "show volumes" 0) as (_ & _ & Hzero).
  split; [|split; [apply Hneg; lia | by apply Hzero]].
  rewrite Hk. simpl in Hb.
  assert (k = 0%nat) as -> by lia. reflexivity.
Defined.

End ReadlineFacts.

(** ** Plugin discovery *)

Section DiscoveryFacts.

Import Namespace Context.

Variable os : Os.
Variable fs : FileSystem.

Local Abbreviation covered := (Config.covered os).
Local Abbreviation grows := Config.grows.

Lemma grows_refl (c : Context.t) : grows c c.
Proof. by split. Qed.

Lemma grows_trans (a b c : Context.t) : grows a b -> grows b c -> grows a c.
Proof.
  intros [H1 H2] [H3 H4]. split; [auto | congruence].
Qed.

Lemma attach_keeps (self : Context.t) (path : string) (ns : Namespace.t) :
  plugins (attach_namespace self path ns).1 = plugins self
  /\ plugin_dirs (attach_namespace self path ns).1 = plugin_dirs self.
Proof.
  unfold attach_namespace.
  destruct (resolve _ _); [|by split].
  destruct (py_split_last "/" path) as [name ->]. by split.
Qed.

Lemma run_attaches_keeps (calls : list (string * Namespace.t)) :
  forall self : Context.t,
    plugins (run_attaches self calls).1 = plugins self
    /\ plugin_dirs (run_attaches self calls).1 = plugin_dirs self.
Proof.
  induction calls as [|[path ns] rest IH]; intros self; simpl; [by split|].
  destruct (attach_keeps self path ns) as [H1 H2].
  destruct (attach_namespace self path ns) as [self' [[]|e]]; simpl in *.
  - destruct (IH self') as [H3 H4]. split; congruence.
  - by split.
Qed.

Lemma run_init_keeps (self : Context.t) (hook : InitHook) :
  plugins (run_init self hook).1 = plugins self
  /\ plugin_dirs (run_init self hook).1 = plugin_dirs self.
Proof.
  unfold run_init. destruct (run_attaches_keeps (attaches hook) self) as [H1 H2].
  destruct (run_attaches self (attaches hook)) as [self' [[]|e]]; simpl in *;
    [destruct (init_raises hook)|]; by split.
Qed.

(** A load that returns, of a file that has [_init] if it can be loaded
    at all, leaves the path recorded. *)
Lemma try_load_plugin_records (c c' : Context.t) (p : string) :
  (forall pl, source fs p = Ok pl -> init_hook pl <> None) ->
  try_load_plugin fs c p = (c', Ok tt) ->
  Dict.mem p (plugins c') = true /\ grows c c'.
Proof.
  intros Hinit.
  destruct (Dict.mem p (plugins c)) eqn:Hmem.
  { rewrite try_load_plugin_known by exact Hmem.
    intros [= <-]. split; [exact Hmem | apply grows_refl]. }
  destruct (source fs p) as [pl|e] eqn:Hsrc;
    [|unfold try_load_plugin; rewrite Hmem, Hsrc; discriminate].
  destruct (init_hook pl) as [hook|] eqn:Hhook; [|by destruct (Hinit pl)].
  rewrite (try_load_plugin_with_init fs c p pl hook Hsrc Hhook Hmem).
  set (c0 := emit _ (InitCalled p)).
  destruct (run_init_keeps c0 hook) as [Hpl Hdirs].
  destruct (run_init c0 hook) as [c3 [[]|e]]; [|discriminate].
  simpl in Hpl, Hdirs. intros [= <-]. simpl. split; [apply dict_mem_set|].
  split; simpl.
  - intros q Hq. apply dict_mem_set_other. by rewrite Hpl.
  - exact Hdirs.
Qed.

Lemma load_listed_records (dir : Json) (names : list string) :
  (forall p pl, source fs p = Ok pl -> init_hook pl <> None) ->
  forall c c' : Context.t,
    load_listed os fs c dir names = (c', Ok tt) ->
    (forall i, In i names ->
       exists p, path_join os dir i = Ok p /\ Dict.mem p (plugins c') = true)
    /\ grows c c'.
Proof.
  intros Hinit. induction names as [|i rest IH]; intros c c' Hrun; simpl in Hrun.
  - injection Hrun as <-. split; [intros i [] | apply grows_refl].
  - destruct (path_join os dir i) as [p|e] eqn:Hjoin; [|discriminate].
    destruct (try_load_plugin fs c p) as [c1 [[]|e]] eqn:Hload; [|discriminate].
    destruct (try_load_plugin_records c c1 p (Hinit p) Hload) as [Hp Hg1].
    destruct (IH c1 c' Hrun) as [Hrest Hg2].
    split; [|by eapply grows_trans].
    intros j [<-|Hj]; [|by apply Hrest].
    exists p. split; [exact Hjoin|]. by apply Hg2.
Qed.

Lemma discover_dirs_covers (dirs : list Json) :
  (forall p pl, source fs p = Ok pl -> init_hook pl <> None) ->
  forall c c' : Context.t,
    discover_dirs os fs c dirs = (c', Ok tt) ->
    covered c' dirs /\ grows c c'.
Proof.
  intros Hinit. induction dirs as [|dir rest IH]; intros c c' Hrun; simpl in Hrun.
  - injection Hrun as <-. split; [intros d [] | apply grows_refl].
  - unfold discover_plugin_dir in Hrun.
    destruct (glob1 os dir) as [names|e] eqn:Hglob; [|discriminate].
    set (c0 := emit c (Debug searching (show os dir))) in Hrun.
    destruct (load_listed os fs c0 dir names) as [c1 [[]|e]] eqn:Hload;
      [|discriminate].
    destruct (load_listed_records dir names Hinit c0 c1 Hload) as [Hnames Hg1].
    destruct (IH c1 c' Hrun) as [Hcov Hg2].
    split.
    + intros d [<-|Hd]; [|by apply Hcov].
      exists names. split; [exact Hglob|]. intros i Hi.
      destruct (Hnames i Hi) as (p & Hjoin & Hp). exists p.
      split; [exact Hjoin|]. by apply Hg2.
    + apply (grows_trans c c1 c'); [|exact Hg2].
      destruct Hg1 as [Hm Hd]. by split.
Qed.

Lemma load_listed_known (dir : Json) (names : list string) (c : Context.t) :
  (forall i, In i names ->
     exists p, path_join os dir i = Ok p /\ Dict.mem p (plugins c) = true) ->
  load_listed os fs c dir names = (c, Ok tt).
Proof.
  induction names as [|i rest IH]; intros Hknown; [reflexivity|]. simpl.
  destruct (Hknown i (or_introl eq_refl)) as (p & -> & Hp).
  rewrite (try_load_plugin_known fs c p Hp). apply IH.
  intros j Hj. apply Hknown. by right.
Qed.

Lemma discover_dirs_known (dirs : list Json) :
  forall c : Context.t,
    covered c dirs ->
    exists c',
      discover_dirs os fs c dirs = (c', Ok tt)
      /\ plugins c' = plugins c
      /\ root_ns c' = root_ns c
      /\ plugin_dirs c' = plugin_dirs c
      /\ trace c' = (trace c ++ map (fun d => Debug searching (show os d)) dirs)%list.
Proof.
  induction dirs as [|dir rest IH]; intros c Hcov.
  - exists c. simpl. by rewrite app_nil_r.
  - simpl. unfold discover_plugin_dir.
    destruct (Hcov dir (or_introl eq_refl)) as (names & -> & Hnames).
    rewrite (load_listed_known dir names (emit c (Debug searching (show os dir))))
      by exact Hnames.
    destruct (IH (emit c (Debug searching (show os dir)))) as (c' & -> & H1 & H2 & H3 & H4).
    { intros d Hd. apply Hcov. by right. }
    exists c'. simpl in *. rewrite H4, <- app_assoc. by repeat split.
Qed.

(** X25: Discovery is idempotent when every file that can be loaded defines
    [_init]: after a discovery that returned, a second discovery of the
    same directories returns too, executes no file, calls no hook and
    leaves the recorded plugins and the namespace tree as they are; it
    only logs the search of each directory again. *)
Theorem discover_plugins_twice (self : Context.t) :
  (forall p pl, source fs p = Ok pl -> init_hook pl <> None) ->
  (discover_plugins os fs self).2 = Ok tt ->
  let once := (discover_plugins os fs self).1 in
  let twice := discover_plugins os fs once in
  twice.2 = Ok tt
  /\ plugins twice.1 = plugins once
  /\ root_ns twice.1 = root_ns once
  /\ trace twice.1
     = (trace once
        ++ map (fun d => Debug searching (show os d)) (plugin_dirs self))%list.
Proof.
  intros Hinit Hfirst once twice. unfold twice, once, discover_plugins in *.
  destruct (discover_dirs os fs self (plugin_dirs self)) as [c1 r] eqn:Hrun.
  simpl in Hfirst. subst r. simpl.
  destruct (discover_dirs_covers (plugin_dirs self) Hinit self c1 Hrun)
    as [Hcov [_ Hdirs]].
  rewrite Hdirs.
  destruct (discover_dirs_known (plugin_dirs self) c1 Hcov)
    as (c2 & -> & H1 & H2 & _ & H4).
  by repeat split.
Qed.

End DiscoveryFacts.

Lemma discover_plugins_twice_witness :
  let os := {| Context.glob1 := fun _ => Ok ["hooks.py"];
               Context.path_join := fun _ i => Ok ("/p/" ++ i);
               Context.show := fun _ => "/p" |} in
  let fs := {| Context.json_load := Context.json_load Examples.files;
               Context.source := fun p =>
                 if String.eqb p "/p/hooks.py"
                 then Context.source Examples.files p else Raise IOError |} in
  let self := Context.set_plugin_dirs (Context.init "C")
                [Context.JStr "/p"; Context.JStr "/p"] in
  let once := (Context.discover_plugins os fs self).1 in
  let twice := Context.discover_plugins os fs once in
  twice.2 = Ok tt
  /\ Context.plugins twice.1 = Context.plugins once
  /\ Context.root_ns twice.1 = Context.root_ns once
  /\ Context.trace twice.1
     = (Context.trace once
        ++ [Context.Debug Context.searching "/p";
            Context.Debug Context.searching "/p"])%list.
Proof.
  intros os fs self.
  apply (discover_plugins_twice os fs self); [|reflexivity].
  intros p pl. simpl. destruct (String.eqb p "/p/hooks.py"); [|discriminate].
  intros [= <-]. discriminate.
Defined.

(** ** The entry point *)

Section MainFacts.

Import Context Main.

(** [repl] never goes on to a next line of its own accord: it ends by an
    exception or waiting for the lock. *)
Lemma repl_ends (input : list string) :
  forall (self : MainLoop.t) (out : Output.t),
    (MainLoop.repl self out input).2 <> MainLoop.NextLine.
Proof.
  induction input as [|raw rest IH]; intros self out; simpl; [discriminate|].
  destruct (MainLoop.repl_line self out raw) as [[self' out'] [| e |]];
    [apply IH | discriminate | discriminate].
Qed.

(** X29: How the start of the program fails on its arguments: the file read
    as configuration is the value of [-c], not of [--config]; so without
    [-c] the program ends with [TypeError] before any plugin is searched
    and before the connection is opened, and with [-c] naming a file that
    cannot be opened or parsed it ends with the exception of that.  In no
    case does [main] return: it ends by an exception or waiting for the
    lock. *)
Theorem main_reads_c (env : Env) (args : Args) (input : list string)
  (lang0 : string) :
  lang env = Some lang0 ->
  let context := set_hostname (Context.init lang0) (arg_hostname args) in
  (arg_c args = None ->
   main env args input
   = (Some context, Output.init, MainLoop.Propagates (TypeError not_a_file_name)))
  /\ (forall f e,
        arg_c args = Some f -> json_load (fs env) f = Raise e ->
        main env args input = (Some context, Output.init, MainLoop.Propagates e))
  /\ (main env args input).2 <> MainLoop.NextLine.
Proof.
  intros Hlang context. unfold main. rewrite Hlang. fold context.
  split; [|split].
  - intros ->. reflexivity.
  - intros f e -> Hload. simpl.
    unfold read_config_file. rewrite Hload.
    by destruct (is_IOError_or_ValueError e).
  - destruct (read_config_file_arg (fs env) context (arg_c args)) as [c1 [[]|e]];
      [|discriminate].
    destruct (start env c1) as [c2 [[]|e]]; [|discriminate].
    destruct (if given (arg_l args) then _ else _) as [c3|e]; [|discriminate].
    pose proof (repl_ends input
                  (MainLoop.init (builtin_commands env) c3) Output.init) as Hend.
    by destruct (MainLoop.repl _ Output.init input) as [[ml out] oc].
Qed.

End MainFacts.

Lemma main_reads_c_witness :
  let env := {| Main.lang := Some "C";
                Main.fs := Examples.files;
                Main.os := {| Context.glob1 := fun _ => Ok [];
                              Context.path_join := fun _ i => Ok i;
                              Context.show := fun _ => "" |};
                Main.client := {| Main.connect := fun _ => None;
                                  Main.login_user := fun _ _ => None;
                                  Main.subscribe_events := fun _ => None |};
                Main.builtin_commands := Examples.builtin_commands |} in
  let args := {| Main.arg_hostname := "nas"; Main.arg_config := "/etc/cli.conf";
                 Main.arg_c := None; Main.arg_l := None; Main.arg_p := None;
                 Main.arg_D := None |} in
  Main.main env args ["exit"]
  = (Some (Main.set_hostname (Context.init "C") "nas"), Output.init,
     MainLoop.Propagates (TypeError Main.not_a_file_name)).
Proof.
  intros env args.
  destruct (main_reads_c env args ["exit"] "C" eq_refl) as (H & _ & _).
  by apply H.
Defined.
